(** * Azure SDK for JavaScript samples: outcome classification and bounded retry

    A shallow embedding of the three console scripts and of the two Key Vault
    provisioning scripts of the repository, and the properties of their
    error-classification ladder, exit statuses and RBAC-propagation retry
    loop.

    - [JS]: the JavaScript values the scripts inspect (thrown values, the
      [statusCode] of a [RestError], template-literal rendering).
    - [Broker]: the two brokered-authentication scripts of
      [samples/identity/credentials/src/broker.ts]: the one whose [try]
      block sits at module top level and calls [process.exit] itself, and
      the one that wraps the same logic in [main(): Promise<number>].
    - [ListResourceGroups]: the resource-group listing script.
    - [Setup]: the tail of the two provisioning shell scripts (role
      assignment, secret-write retry loop, summary, configuration file).

    External collaborators (SDK constructors, [getSecret], the [az] CLI) are
    inputs of the model: a record of what each call answers. *)

From Stdlib Require Import String Ascii ZArith List Bool Lia DecimalString.
Import ListNotations.
Local Open Scope string_scope.
Local Open Scope Z_scope.

(** Decimal rendering of an integer, as a template literal and a shell
    expansion both print it. *)
Definition decimal (n : Z) : string := NilZero.string_of_int (Z.to_int n).

(** A double quote, for the messages that print one. *)
Definition dq : string := String (ascii_of_nat 34) EmptyString.

(* ================================================================== *)
(** ** JavaScript values *)
(* ================================================================== *)

Module JS.

(** The integers every JavaScript number represents exactly and prints in
    plain decimal: magnitude at most [Number.MAX_SAFE_INTEGER]. *)
Definition safe_integer (n : Z) : bool := Z.abs n <=? 2 ^ 53 - 1.

(** The values a property read through [as any] may produce. A number is
    a safe integer (HTTP status codes are); the constructor carries the
    evidence, so larger magnitudes, fractions, [NaN] and the infinities
    are not values of the model. *)
Inductive value : Type :=
| undefined
| null
| boolean (b : bool)
| number (n : Z) (safe : safe_integer n = true)
| text (s : string).

(** [if (v)]: JavaScript truthiness. *)
Definition truthy (v : value) : bool :=
  match v with
  | undefined | null => false
  | boolean b => b
  | number n _ => negb (n =? 0)
  | text s => negb (String.eqb s EmptyString)
  end.

(** [v === n] for a number literal [n]. *)
Definition strict_eq_number (v : value) (n : Z) : bool :=
  match v with
  | number m _ => m =? n
  | _ => false
  end.

(** [`${v}`]: the string a template literal interpolates. A safe integer
    prints as its decimal digits, with a minus sign when negative. *)
Definition template (v : value) : string :=
  match v with
  | undefined => "undefined"
  | null => "null"
  | boolean true => "true"
  | boolean false => "false"
  | number n _ => decimal n
  | text s => s
  end.

(** [`${s}`] for an optional string ([string | undefined]). *)
Definition template_opt (s : option string) : string :=
  match s with
  | Some s => s
  | None => "undefined"
  end.

(** [haystack.includes(needle)]. Strings are byte sequences (UTF-8); for
    well-formed text, containment of bytes and of UTF-16 code units
    agree. *)
Fixpoint includes (haystack needle : string) : bool :=
  if String.prefix needle haystack then true
  else match haystack with
       | EmptyString => false
       | String _ rest => includes rest needle
       end.

(** What [instanceof] can tell about a thrown value: [AuthenticationError]
    extends [Error]; anything may be thrown, also a value that is no
    [Error] at all. *)
Inductive prototype : Type :=
| AuthenticationError_prototype
| Error_prototype
| other_prototype.

(** A thrown value, by the properties the [catch] blocks read:
    [error.name], [error.message], [error.statusCode] and [String(error)]. *)
Record thrown : Type := mk_thrown {
  proto : prototype;
  name : string;
  message : string;
  statusCode : value;
  String_of : string
}.

Definition instanceof_AuthenticationError (e : thrown) : bool :=
  match proto e with
  | AuthenticationError_prototype => true
  | _ => false
  end.

Definition instanceof_Error (e : thrown) : bool :=
  match proto e with
  | AuthenticationError_prototype | Error_prototype => true
  | other_prototype => false
  end.

(** [new Error(msg)]. *)
Definition new_Error (msg : string) : thrown :=
  {| proto := Error_prototype;
     name := "Error";
     message := msg;
     statusCode := undefined;
     String_of := "Error: " ++ msg |}.

(** The same thrown value with another [statusCode] property. *)
Definition with_statusCode (e : thrown) (v : value) : thrown :=
  {| proto := proto e;
     name := name e;
     message := message e;
     statusCode := v;
     String_of := String_of e |}.

(** What a script does that the outside can observe, in order. *)
Inductive event : Type :=
| console_log (line : string)
| console_error (line : string)
| console_error_value (e : thrown)
| new_InteractiveBrowserCredential
| new_SecretClient (vaultUri : string)
| getSecret (secretName : string)
| new_DefaultAzureCredential
| new_ResourceManagementClient (subscriptionId : string)
| resourceGroups_list.

(** How a Node.js process ends: [process.exit(n)] (or the event loop
    draining, status 0), or an exception nobody caught. *)
Inductive ending : Type :=
| exited (status : Z)
| uncaught (e : thrown).

(** The exit status the shell sees; Node.js ends with 1 on an uncaught
    exception. *)
Definition status_of (x : ending) : Z :=
  match x with
  | exited n => n
  | uncaught _ => 1
  end.

Record run : Type := mk_run {
  events : list event;
  result : ending
}.

Definition is_remote_call (ev : event) : bool :=
  match ev with
  | new_SecretClient _ | getSecret _ => true
  | _ => false
  end.

Definition escapes (r : run) : bool :=
  match result r with
  | uncaught _ => true
  | exited _ => false
  end.

End JS.

(* ================================================================== *)
(** ** Outcome codes *)
(* ================================================================== *)

(** The closed set of outcomes, and the exit status of each as the sample's
    README lists them under "Error Codes". *)
Inductive OutcomeCode : Type :=
| Success
| UnexpectedError
| AuthenticationFailed
| ServiceRequestFailed
| InvalidConfiguration.

Definition exit_status (c : OutcomeCode) : Z :=
  match c with
  | Success => 0
  | UnexpectedError => 1
  | AuthenticationFailed => 2
  | ServiceRequestFailed => 3
  | InvalidConfiguration => 4
  end.

(* ================================================================== *)
(** ** The brokered-authentication scripts *)
(* ================================================================== *)

Module Broker.
Import JS.

Definition placeholder : string := "<your-key-vault-name>".
Definition default_vaultUri : string :=
  "https://<your-key-vault-name>.vault.azure.net/".

(** The part of a [KeyVaultSecret] the scripts print. *)
Record secret : Type := mk_secret {
  secret_value : option string;
  createdOn_ISO : option string
}.

(** What the environment and the SDK answer during one run. [Some e] for a
    constructor means that it throws [e]. *)
Record world : Type := mk_world {
  AZURE_KEY_VAULT_URL : option string;
  credential_throws : option thrown;
  client_throws : string -> option thrown;
  getSecret_answer : string -> thrown + secret
}.

(** [process.env.AZURE_KEY_VAULT_URL! || "https://<your-key-vault-name>..."]:
    an unset and an empty variable both fall back to the default. *)
Definition vaultUri (w : world) : string :=
  match AZURE_KEY_VAULT_URL w with
  | Some s => if String.eqb s EmptyString then default_vaultUri else s
  | None => default_vaultUri
  end.

Definition msg_401 : string :=
  "❌ Authentication failed. Please ensure you're signed in to Azure and have the correct permissions.".
Definition msg_403 : string :=
  "🚫 Access denied. Please check your Azure Key Vault access policies.".
Definition msg_404 : string :=
  "🔍 Secret 'MySecret' not found in the Key Vault. Please verify the secret name and Key Vault URL.".
Definition msg_generic (error : thrown) : string :=
  "⚠️ Azure Key Vault error (" ++ template (statusCode error) ++ "): " ++ message error.
Definition msg_invalid_url : string :=
  "🌐 Invalid Key Vault URL. Please update the vaultUri in the code with your actual Key Vault URL.".
Definition msg_authentication (error : thrown) : string :=
  "🔐 Authentication failed: " ++ message error.
Definition msg_placeholder_1 : string :=
  "❌ Please set the AZURE_KEY_VAULT_URL environment variable or update the vaultUri in the code.".
Definition msg_placeholder_2 : string :=
  "   Example: export AZURE_KEY_VAULT_URL=" ++ dq
  ++ "https://your-vault-name.vault.azure.net/" ++ dq.

(** The nested conditional that picks the message of a [RestError] that has
    a status code. *)
Definition rest_error_message (restError : thrown) : string :=
  if strict_eq_number (statusCode restError) 401 then msg_401
  else if strict_eq_number (statusCode restError) 403 then msg_403
  else if strict_eq_number (statusCode restError) 404 then msg_404
  else msg_generic restError.

(** The statements after the [if]/[else if] chain of the [catch] block. *)
Definition unexpected (error : thrown) : string * Z :=
  let errorMessage :=
    if instanceof_Error error then message error else String_of error in
  ("💥 An unexpected error occurred: " ++ errorMessage, 1).

(** The [catch (error)] block, the same in both scripts up to how the code
    leaves it ([process.exit(n)] or [return n]): the line written to the
    error stream and the code. A [RestError] without a truthy [statusCode]
    leaves the chain through its own branch, so the [Invalid URL] test is
    not made for it. *)
Definition catch_block (error : thrown) : string * Z :=
  if instanceof_AuthenticationError error then
    (msg_authentication error, 2)
  else if instanceof_Error error && String.eqb (name error) "RestError" then
    if truthy (statusCode error) then (rest_error_message error, 3)
    else unexpected error
  else if instanceof_Error error && includes (message error) "Invalid URL" then
    (msg_invalid_url, 4)
  else unexpected error.

(** The [try] block after the credential exists, up to the point where it
    either throws or completes with a code: the events so far, and the
    thrown value or the code. [closing] is what the script prints between
    the secret's lines and the success code (the first script prints its
    closing line there, the second prints none). *)
Definition try_body (closing : list event) (w : world)
  : list event * (thrown + Z) :=
  let uri := vaultUri w in
  let e0 := [console_log ("Using Key Vault URL: " ++ uri)] in
  if includes uri placeholder then
    ((e0 ++ [console_error msg_placeholder_1;
             console_error msg_placeholder_2])%list,
     inr 4)
  else
    let e1 := (e0 ++ [new_SecretClient uri])%list in
    match client_throws w uri with
    | Some err => (e1, inl err)
    | None =>
      let e2 :=
        (e1 ++ [console_log "Retrieving secret 'MySecret' from Key Vault...";
                getSecret "MySecret"])%list in
      match getSecret_answer w uri with
      | inl err => (e2, inl err)
      | inr s =>
        ((e2 ++ [console_log "✅ Secret 'MySecret' retrieved successfully!";
                 console_log ("🔑 Value: " ++ template_opt (secret_value s));
                 console_log ("📅 Created: " ++ template_opt (createdOn_ISO s))]
             ++ closing)%list,
         inr 0)
      end
    end.

(** What the [try] block prints when it finds the placeholder. *)
Definition placeholder_lines (uri : string) : list event :=
  [ console_log ("Using Key Vault URL: " ++ uri);
    console_error msg_placeholder_1;
    console_error msg_placeholder_2 ].

(** [try { ... } catch (error) { ... }]: the code the script computes. *)
Definition try_catch (body : list event * (thrown + Z)) : list event * Z :=
  match body with
  | (evs, inr code) => (evs, code)
  | (evs, inl error) =>
    let '(line, code) := catch_block error in
    ((evs ++ [console_error line])%list, code)
  end.

(** *** First script: [try] at module top level

    The credential is constructed before the [try]; every path through the
    [try]/[catch] ends in [process.exit] with the code. On success the
    script prints its closing line before [process.exit(0)]. *)
Module TopLevel.

Definition outcome (w : world) : list event * Z :=
  try_catch (try_body [console_log "✅ Done"] w).

Definition script (w : world) : run :=
  match credential_throws w with
  | Some err =>
    {| events := [new_InteractiveBrowserCredential]; result := uncaught err |}
  | None =>
    let '(evs, code) := outcome w in
    {| events := new_InteractiveBrowserCredential :: evs;
       result := exited code |}
  end.

End TopLevel.

(** *** Second script: [async function main(): Promise<number>]

    The credential is constructed inside the [try]. [main] resolves with the
    code; the continuation [main().then(() => { ...; process.exit(0) })]
    takes no parameter. Nothing in [main] escapes its [catch], so the
    promise never rejects and the [.catch] continuation never runs. *)
Module Main.

Definition main (w : world) : list event * Z :=
  match credential_throws w with
  | Some err => try_catch ([new_InteractiveBrowserCredential], inl err)
  | None =>
    let '(evs, r) := try_body [] w in
    try_catch (new_InteractiveBrowserCredential :: evs, r)
  end.

Definition script (w : world) : run :=
  let '(evs, _) := main w in
  {| events := (evs ++ [console_log "✅ Done"])%list; result := exited 0 |}.

End Main.

End Broker.

(* ================================================================== *)
(** ** The resource-group listing script *)
(* ================================================================== *)

Module ListResourceGroups.
Import JS.

(** What the environment and the SDK answer: the groups the pager yields
    (by [item.name]) and, if the iteration fails after them, the failure. *)
Record world : Type := mk_world {
  AZURE_SUBSCRIPTION_ID : option string;
  credential_throws : option thrown;
  client_throws : option thrown;
  listed : list (option string);
  list_throws : option thrown
}.

(** [!subscriptionId]: unset or empty. *)
Definition missing (v : option string) : bool :=
  match v with
  | None => true
  | Some s => String.eqb s EmptyString
  end.

(** The body of [for await (const item of ...)], with [i] as it stands
    before the item. *)
Fixpoint print_items (i : Z) (items : list (option string))
  : list event * Z :=
  match items with
  | [] => ([], i)
  | item :: rest =>
    let '(evs, n) := print_items (i + 1) rest in
    (console_log (decimal (i + 1) ++ ": " ++ template_opt item) :: evs, n)
  end.

(** [async function main()]: the events, and [Some e] when the promise
    rejects with [e]. *)
Definition main (subscriptionId : string) (w : world)
  : list event * option thrown :=
  match credential_throws w with
  | Some err => ([new_DefaultAzureCredential], Some err)
  | None =>
    let e1 := [new_DefaultAzureCredential;
               new_ResourceManagementClient subscriptionId] in
    match client_throws w with
    | Some err => (e1, Some err)
    | None =>
      let '(printed, i) := print_items 0 (listed w) in
      let e2 := (e1 ++ resourceGroups_list :: printed)%list in
      match list_throws w with
      | Some err => (e2, Some err)
      | None =>
        ((e2 ++ [console_log ("Found " ++ decimal i ++ " resource group(s).")])%list,
         None)
      end
    end
  end.

(** The module body: the guard on the subscription id throws at top level,
    before [main] is called and outside any handler; [main().catch] logs a
    rejection and the process then ends on its own with status 0. *)
Definition script (w : world) : run :=
  if missing (AZURE_SUBSCRIPTION_ID w) then
    {| events := [];
       result := uncaught
         (new_Error "AZURE_SUBSCRIPTION_ID environment variable is not set.") |}
  else
    let subscriptionId := template_opt (AZURE_SUBSCRIPTION_ID w) in
    let e0 := console_log ("Using Subscription ID: " ++ subscriptionId) in
    match main subscriptionId w with
    | (evs, None) => {| events := e0 :: evs; result := exited 0 |}
    | (evs, Some err) =>
      {| events := (e0 :: evs ++ [console_error_value err])%list;
         result := exited 0 |}
    end.

End ListResourceGroups.

(* ================================================================== *)
(** ** The provisioning scripts *)
(* ================================================================== *)

Module Setup.

(** Bash evaluates [$(( ))] in 64-bit signed integers and wraps around. *)
Definition wrap64 (x : Z) : Z := (x + 2 ^ 63) mod 2 ^ 64 - 2 ^ 63.

(** What a script does that the outside can observe, in order: the four
    printing functions, plain [echo], [sleep], the two [az] commands of the
    tail and the here-document written to [CONFIG_FILE]. *)
Inductive event : Type :=
| print_status (msg : string)
| print_success (msg : string)
| print_warning (msg : string)
| print_error (msg : string)
| echo (line : string)
| sleep (seconds : Z)
| az_role_assignment_create
| az_keyvault_secret_set
| cat_CONFIG_FILE (lines : list string).

(** The shell variables the tail reads and the exit status of each external
    command: [secret_set_status i] answers the invocation number [i]
    (from 0) of [az keyvault secret set]; status 0 is success. *)
Record world : Type := mk_world {
  RANDOM_SUFFIX : string;
  SUBSCRIPTION_ID : string;
  CURRENT_USER_OBJECT_ID : string;
  CURRENT_USER_UPN : string;
  KEY_VAULT_ID : string;
  date : string;
  role_assignment_status : Z;
  secret_set_status : nat -> Z;
  cat_status : Z
}.

Definition RESOURCE_PREFIX : string := "kvbroker".
Definition LOCATION : string := "eastus".
Definition RESOURCE_GROUP_NAME (w : world) : string :=
  RESOURCE_PREFIX ++ "rg" ++ RANDOM_SUFFIX w.
Definition KEY_VAULT_NAME (w : world) : string :=
  RESOURCE_PREFIX ++ "kv" ++ RANDOM_SUFFIX w.
Definition CONFIG_FILE : string := "./keyvault-config.txt".

(** *** The retry loop *)

(** The numbers of the loop. The scripts fix them: [MAX_RETRIES=12],
    [RETRY_DELAY=10], and the literals 5 and 30 of the delay update. *)
Record retry_params : Type := mk_params {
  MAX_RETRIES : Z;
  INITIAL_DELAY : Z;
  DELAY_INCREMENT : Z;
  DELAY_CAP : Z
}.

Definition script_params : retry_params :=
  {| MAX_RETRIES := 12; INITIAL_DELAY := 10;
     DELAY_INCREMENT := 5; DELAY_CAP := 30 |}.

(** The variables of the loop, the output so far, how many times the
    secret write has been invoked, and whether [break] was taken. *)
Record retry_state : Type := mk_state {
  RETRY_COUNT : Z;
  RETRY_DELAY : Z;
  calls : nat;
  out : list event;
  broke : bool
}.

Definition initial (p : retry_params) : retry_state :=
  {| RETRY_COUNT := 0; RETRY_DELAY := INITIAL_DELAY p;
     calls := 0; out := []; broke := false |}.

(** [RETRY_DELAY=$((RETRY_DELAY < 30 ? RETRY_DELAY + 5 : 30))]. *)
Definition next_delay (p : retry_params) (d : Z) : Z :=
  wrap64 (if d <? DELAY_CAP p then d + DELAY_INCREMENT p else DELAY_CAP p).

Definition attempt_line (p : retry_params) (s : retry_state) : string :=
  "Attempt " ++ decimal (wrap64 (RETRY_COUNT s + 1)) ++ "/"
  ++ decimal (MAX_RETRIES p) ++ " - Waiting " ++ decimal (RETRY_DELAY s)
  ++ " seconds for RBAC propagation...".

(** The [if [ $RETRY_COUNT -gt 0 ]] block at the head of the body. *)
Definition wait (p : retry_params) (s : retry_state) : retry_state :=
  if 0 <? RETRY_COUNT s then
    {| RETRY_COUNT := RETRY_COUNT s;
       RETRY_DELAY := next_delay p (RETRY_DELAY s);
       calls := calls s;
       out := out s ++ [print_status (attempt_line p s); sleep (RETRY_DELAY s)];
       broke := broke s |}
  else s.

(** The secret write and what follows it. The command is the condition of
    an [if], so its failure does not end the script under [set -e].
    [exhausted] are the warnings printed when the count reaches the
    maximum (they differ between the two scripts). *)
Definition attempt (p : retry_params) (status : nat -> Z)
    (exhausted : list event) (s : retry_state) : retry_state :=
  if status (calls s) =? 0 then
    {| RETRY_COUNT := RETRY_COUNT s;
       RETRY_DELAY := RETRY_DELAY s;
       calls := S (calls s);
       out := out s ++ [az_keyvault_secret_set;
                        print_success "Sample secret created successfully!"];
       broke := true |}
  else
    let count := wrap64 (RETRY_COUNT s + 1) in
    {| RETRY_COUNT := count;
       RETRY_DELAY := RETRY_DELAY s;
       calls := S (calls s);
       out := out s ++ az_keyvault_secret_set
                :: (if count =? MAX_RETRIES p then exhausted else []);
       broke := false |}.

(** One pass through the body of the [while]. *)
Definition iteration (p : retry_params) (status : nat -> Z)
    (exhausted : list event) (s : retry_state) : retry_state :=
  attempt p status exhausted (wait p s).

(** Whether the loop goes on: no [break] yet and
    [[ $RETRY_COUNT -lt $MAX_RETRIES ]]. *)
Definition running (p : retry_params) (s : retry_state) : bool :=
  negb (broke s) && (RETRY_COUNT s <? MAX_RETRIES p).

(** The [while] loop, with a bound on the number of passes; [None] when
    the bound is reached with the loop still running. *)
Fixpoint while_loop (p : retry_params) (status : nat -> Z)
    (exhausted : list event) (fuel : nat) (s : retry_state)
  : option retry_state :=
  if running p s then
    match fuel with
    | O => None
    | S fuel' =>
      while_loop p status exhausted fuel' (iteration p status exhausted s)
    end
  else Some s.

(** The loop as the scripts run it, from the initial variables. Every pass
    that does not [break] adds one to the count, so [MAX_RETRIES] passes
    always suffice. *)
Definition retry_loop (p : retry_params) (status : nat -> Z)
    (exhausted : list event) : option retry_state :=
  while_loop p status exhausted (Z.to_nat (MAX_RETRIES p)) (initial p).

(** The loop's state as it stands after [n] passes. *)
Definition after (p : retry_params) (status : nat -> Z)
    (exhausted : list event) (n : nat) : retry_state :=
  Nat.iter n (iteration p status exhausted) (initial p).

(** The value of [RETRY_DELAY] after [i] updates. *)
Definition delay_seq (p : retry_params) (i : nat) : Z :=
  Nat.iter i (next_delay p) (INITIAL_DELAY p).

(** The increment-then-cap sequence in closed form: the base delay plus
    [i] increments, held at the cap. This one follows the words of the
    retry runner's description, not the script's update expression. *)
Definition capped_delay (p : retry_params) (i : nat) : Z :=
  Z.min (INITIAL_DELAY p + Z.of_nat i * DELAY_INCREMENT p) (DELAY_CAP p).

(** The numbers the retry runner is meant for: at least one attempt, a
    base delay not above the cap, an increment that is not negative and
    that steps from the base exactly onto the cap, all within the range of
    shell arithmetic. The scripts' numbers are of this kind. *)
Record contract (p : retry_params) : Prop := mk_contract {
  max_positive : 1 <= MAX_RETRIES p;
  max_in_range : MAX_RETRIES p < 2 ^ 63;
  base_in_range : - 2 ^ 63 <= INITIAL_DELAY p;
  base_below_cap : INITIAL_DELAY p <= DELAY_CAP p;
  increment_nonneg : 0 <= DELAY_INCREMENT p;
  cap_in_range : DELAY_CAP p + DELAY_INCREMENT p < 2 ^ 63;
  cap_on_grid : (DELAY_INCREMENT p | DELAY_CAP p - INITIAL_DELAY p)
}.

(** Reading a trace: the secret writes attempted, and the seconds slept. *)
Definition is_attempt (ev : event) : bool :=
  match ev with
  | az_keyvault_secret_set => true
  | _ => false
  end.

Definition attempts (evs : list event) : nat :=
  List.length (List.filter is_attempt evs).

Fixpoint sleeps (evs : list event) : list Z :=
  match evs with
  | [] => []
  | sleep d :: rest => d :: sleeps rest
  | _ :: rest => sleeps rest
  end.

Definition total (ds : list Z) : Z := List.fold_right Z.add 0 ds.

(** *** The script around the loop *)

(** How a command sequence ends under [set -e]: it runs on, the shell
    exits with a status, or the loop's bound was hit. *)
Inductive outcome (A : Type) : Type :=
| ok (a : A)
| exit (status : Z)
| out_of_fuel.
Arguments ok {A} a.
Arguments exit {A} status.
Arguments out_of_fuel {A}.

(** A piece of script: what it prints and runs, and how it ends. *)
Definition sh (A : Type) : Type := list event * outcome A.

Definition ret {A : Type} (a : A) : sh A := ([], ok a).

Definition bind {A B : Type} (c : sh A) (f : A -> sh B) : sh B :=
  match c with
  | (evs, ok a) => let '(evs', r) := f a in (evs ++ evs', r)%list
  | (evs, exit n) => (evs, exit n)
  | (evs, out_of_fuel) => (evs, out_of_fuel)
  end.

Declare Scope sh_scope.
Delimit Scope sh_scope with sh.
Notation "x <- c ;; k" := (bind c (fun x => k))
  (at level 61, c at next level, right associativity) : sh_scope.
Notation "c ;; k" := (bind c (fun _ => k))
  (at level 61, right associativity) : sh_scope.

Definition emit (ev : event) : sh unit := ([ev], ok tt).
Definition emit_all (evs : list event) : sh unit := (evs, ok tt).

(** A simple command at statement level: [set -e] ends the script with the
    command's status when that is not 0. *)
Definition command (ev : event) (status : Z) : sh Z :=
  ([ev], if status =? 0 then ok 0 else exit status).

(** A command in the condition of an [if]: its status is only tested. *)
Definition condition (ev : event) (status : Z) : sh Z := ([ev], ok status).

(** The loop inside a script. *)
Definition run_retry_loop (p : retry_params) (status : nat -> Z)
    (exhausted : list event) : sh retry_state :=
  match retry_loop p status exhausted with
  | Some s => (out s, ok s)
  | None => ([], out_of_fuel)
  end.

Definition vault_url (w : world) : string :=
  "https://" ++ KEY_VAULT_NAME w ++ ".vault.azure.net/".

(** The summary printed after the loop, the same in both scripts. *)
Definition summary (w : world) : list event :=
  [ echo EmptyString;
    print_success "Setup completed successfully!";
    echo EmptyString;
    echo "=== RESOURCE SUMMARY ===";
    echo ("Resource Group: " ++ RESOURCE_GROUP_NAME w);
    echo ("Key Vault Name: " ++ KEY_VAULT_NAME w);
    echo ("Key Vault URL: " ++ vault_url w);
    echo ("Location: " ++ LOCATION);
    echo ("User: " ++ CURRENT_USER_UPN w);
    echo "Role: Key Vault Secrets Officer";
    echo EmptyString;
    echo "=== NEXT STEPS ===";
    echo "1. Set the Key Vault URL as an environment variable:";
    echo ("   export AZURE_KEY_VAULT_URL=" ++ dq ++ vault_url w ++ dq);
    echo EmptyString;
    echo "   Or add it to your .env file:";
    echo ("   echo " ++ dq ++ "AZURE_KEY_VAULT_URL=" ++ vault_url w ++ dq
          ++ " >> sample.env");
    echo EmptyString;
    echo "2. Run the brokered authentication sample:";
    echo "   npm run build";
    echo "   npm run start:broker";
    echo EmptyString;
    echo "3. Clean up resources when done:";
    echo ("   az group delete --name " ++ RESOURCE_GROUP_NAME w
          ++ " --yes --no-wait");
    echo EmptyString ].

(** The here-document of [cat > CONFIG_FILE]. *)
Definition config_lines (w : world) : list string :=
  [ "# Azure Key Vault Configuration";
    "# Generated on: " ++ date w;
    EmptyString;
    "RESOURCE_GROUP_NAME=" ++ dq ++ RESOURCE_GROUP_NAME w ++ dq;
    "KEY_VAULT_NAME=" ++ dq ++ KEY_VAULT_NAME w ++ dq;
    "KEY_VAULT_URL=" ++ dq ++ vault_url w ++ dq;
    "LOCATION=" ++ dq ++ LOCATION ++ dq;
    "SUBSCRIPTION_ID=" ++ dq ++ SUBSCRIPTION_ID w ++ dq;
    "USER_UPN=" ++ dq ++ CURRENT_USER_UPN w ++ dq;
    EmptyString;
    "# Environment variable to set:";
    "export AZURE_KEY_VAULT_URL=" ++ dq ++ vault_url w ++ dq;
    EmptyString;
    "# To clean up these resources:";
    "# az group delete --name " ++ RESOURCE_GROUP_NAME w ++ " --yes --no-wait" ].

(** From the summary to the last line, the same in both scripts. The
    redirected [cat] is a simple command: [set -e] applies to it. *)
Definition finish (w : world) : sh unit :=
  (emit_all (summary w) ;;
   command (cat_CONFIG_FILE (config_lines w)) (cat_status w) ;;
   emit (print_success ("Configuration saved to: " ++ CONFIG_FILE)) ;;
   emit (print_status "You can now test the brokered authentication sample!"))%sh.

Definition manual_secret_set (w : world) : string :=
  "az keyvault secret set --vault-name " ++ KEY_VAULT_NAME w
  ++ " --name MySecret --value 'test'".

Definition manual_role_assignment (w : world) : string :=
  "az role assignment create --assignee '" ++ CURRENT_USER_OBJECT_ID w
  ++ "' --role 'Key Vault Secrets Officer' --scope '" ++ KEY_VAULT_ID w ++ "'".

Definition propagation_note : string :=
  "Note: RBAC permissions may take up to 5 minutes to propagate. Retrying if needed...".

(** *** First script, from the role assignment on

    The role assignment is a simple command, so [set -e] ends the script
    when it fails; the test of [$?] after it then only ever sees 0. *)
Module First.

Definition exhausted (p : retry_params) (w : world) : list event :=
  [ print_warning ("Failed to create sample secret after "
                   ++ decimal (MAX_RETRIES p) ++ " attempts.");
    print_warning "RBAC permissions may still be propagating. You can:";
    print_warning "  1. Wait a few more minutes and try manually:";
    print_warning ("     " ++ manual_secret_set w);
    print_warning "  2. Or proceed - the Key Vault is ready, just permissions need time." ].

Definition tail (p : retry_params) (w : world) : sh unit :=
  (emit (print_status "Assigning 'Key Vault Secrets Officer' role to current user...") ;;
   status <- command az_role_assignment_create (role_assignment_status w) ;;
   (if status =? 0
    then emit (print_success "Role assignment completed successfully.")
    else emit (print_error "Failed to assign role. You may need to assign permissions manually.")) ;;
   emit (print_status "Creating sample secret 'MySecret' for testing...") ;;
   emit (print_warning propagation_note) ;;
   run_retry_loop p (secret_set_status w) (exhausted p w) ;;
   finish w)%sh.

Definition script (w : world) : sh unit := tail script_params w.

End First.

(** *** Second script, from the role assignment on

    The role assignment is the condition of an [if] and sets
    [RBAC_SUCCESS]; the retry loop runs only when it is [true]. *)
Module Second.

Definition exhausted (p : retry_params) (w : world) : list event :=
  [ print_warning ("Failed to create sample secret after "
                   ++ decimal (MAX_RETRIES p) ++ " attempts.");
    print_warning "RBAC permissions may still be propagating. You can create it manually:";
    print_warning ("  " ++ manual_secret_set w);
    print_warning "Or wait a few more minutes and try again." ].

Definition skipped (w : world) : list event :=
  [ print_warning "Skipping secret creation due to RBAC assignment failure.";
    print_warning "You can create the secret manually after setting up RBAC permissions:";
    print_warning ("  1. First assign the role: " ++ manual_role_assignment w);
    print_warning ("  2. Then create secret: " ++ manual_secret_set w) ].

Definition assign_role (w : world) : sh bool :=
  (status <- condition az_role_assignment_create (role_assignment_status w) ;;
   if status =? 0 then
     emit (print_success "RBAC role assignment completed successfully.") ;;
     ret true
   else
     emit (print_error "RBAC role assignment failed. You may need to assign the role manually:") ;;
     emit (print_error ("  " ++ manual_role_assignment w)) ;;
     emit (print_warning "This could be due to insufficient permissions or subscription limitations.") ;;
     ret false)%sh.

Definition tail (p : retry_params) (w : world) : sh unit :=
  (RBAC_SUCCESS <- assign_role w ;;
   (if RBAC_SUCCESS : bool then
      emit (print_status "Creating sample secret 'MySecret' for testing...") ;;
      emit (print_warning propagation_note) ;;
      run_retry_loop p (secret_set_status w) (exhausted p w) ;;
      ret tt
    else emit_all (skipped w)) ;;
   finish w)%sh.

Definition script (w : world) : sh unit := tail script_params w.

End Second.

End Setup.

(* ================================================================== *)
(** ** Concrete runs used below *)
(* ================================================================== *)

Module Scenario.
Import JS.

(** An [AuthenticationError] that also carries a 401 status code and the
    name of a service error. *)
Definition authentication_error_with_401 : thrown :=
  {| proto := AuthenticationError_prototype;
     name := "RestError";
     message := "AADSTS70011: invalid scope";
     statusCode := number 401 eq_refl;
     String_of := "AuthenticationError: AADSTS70011: invalid scope" |}.

(** A [RestError] without status code whose text speaks of the address. *)
Definition rest_error_invalid_url : thrown :=
  {| proto := Error_prototype;
     name := "RestError";
     message := "Invalid URL";
     statusCode := undefined;
     String_of := "RestError: Invalid URL" |}.

(** What [new URL] throws on a malformed address. *)
Definition type_error_invalid_url : thrown :=
  {| proto := Error_prototype;
     name := "TypeError";
     message := "Invalid URL";
     statusCode := undefined;
     String_of := "TypeError: Invalid URL" |}.

(** An [Error] that is no [RestError] and carries a status code. *)
Definition plain_error_with_500 : thrown :=
  {| proto := Error_prototype;
     name := "Error";
     message := "upstream failure";
     statusCode := number 500 eq_refl;
     String_of := "Error: upstream failure" |}.

Definition rest_error_503 : thrown :=
  {| proto := Error_prototype;
     name := "RestError";
     message := "Service Unavailable";
     statusCode := number 503 eq_refl;
     String_of := "RestError: Service Unavailable" |}.

(** A vault address is configured, the SDK objects construct, and
    [getSecret] is refused with an [AuthenticationError]. *)
Definition sign_in_refused : Broker.world :=
  {| Broker.AZURE_KEY_VAULT_URL := Some "https://kv.vault.azure.net/";
     Broker.credential_throws := None;
     Broker.client_throws := fun _ => None;
     Broker.getSecret_answer := fun _ => inl authentication_error_with_401 |}.


(** The listing script started without [AZURE_SUBSCRIPTION_ID]. *)
Definition subscription_unset : ListResourceGroups.world :=
  {| ListResourceGroups.AZURE_SUBSCRIPTION_ID := None;
     ListResourceGroups.credential_throws := None;
     ListResourceGroups.client_throws := None;
     ListResourceGroups.listed := [Some "rg-one"; Some "rg-two"];
     ListResourceGroups.list_throws := None |}.

(** The listing script with a subscription; the pager fails after one
    group. *)
Definition listing_fails : ListResourceGroups.world :=
  {| ListResourceGroups.AZURE_SUBSCRIPTION_ID := Some "0000-1111";
     ListResourceGroups.credential_throws := None;
     ListResourceGroups.client_throws := None;
     ListResourceGroups.listed := [Some "rg-one"];
     ListResourceGroups.list_throws := Some rest_error_503 |}.

(** The secret write fails [k] times and then succeeds. *)
Definition fails_then_succeeds (k : nat) (i : nat) : Z :=
  if (i <? k)%nat then 1 else 0.

(** The secret write fails every time (403 until the role propagates). *)
Definition always_fails (i : nat) : Z := 1.

Definition provisioning (role_status : Z) (secret_status : nat -> Z)
  : Setup.world :=
  {| Setup.RANDOM_SUFFIX := "a1b2c3";
     Setup.SUBSCRIPTION_ID := "0000-1111";
     Setup.CURRENT_USER_OBJECT_ID := "aaaa-bbbb";
     Setup.CURRENT_USER_UPN := "dev@example.com";
     Setup.KEY_VAULT_ID := "/subscriptions/0000-1111/vaults/kvbrokerkva1b2c3";
     Setup.date := "Mon Jan  1 00:00:00 UTC 2024";
     Setup.role_assignment_status := role_status;
     Setup.secret_set_status := secret_status;
     Setup.cat_status := 0 |}.

End Scenario.

(* ================================================================== *)
(** ** Further concrete runs *)
(* ================================================================== *)

Module Cases.
Import JS.

(** [throw "socket hang up"]: a thrown string, which is no [Error]. *)
Definition thrown_text : thrown :=
  {| proto := other_prototype;
     name := EmptyString;
     message := EmptyString;
     statusCode := undefined;
     String_of := "socket hang up" |}.

(** A plain object shaped like a service error: it has the name, a status
    code and a message, but [Error] is not in its prototype chain. *)
Definition lookalike_object : thrown :=
  {| proto := other_prototype;
     name := "RestError";
     message := "Invalid URL";
     statusCode := number 404 eq_refl;
     String_of := "[object Object]" |}.

(** A network-level [RestError]: no response, so no status code. *)
Definition rest_error_no_response : thrown :=
  {| proto := Error_prototype;
     name := "RestError";
     message := "getaddrinfo ENOTFOUND kv.vault.azure.net";
     statusCode := undefined;
     String_of := "RestError: getaddrinfo ENOTFOUND kv.vault.azure.net" |}.

(** The address is configured and the secret is there. *)
Definition secret_found : Broker.world :=
  {| Broker.AZURE_KEY_VAULT_URL := Some "https://kv.vault.azure.net/";
     Broker.credential_throws := None;
     Broker.client_throws := fun _ => None;
     Broker.getSecret_answer := fun _ =>
       inr {| Broker.secret_value := Some "s3cret";
              Broker.createdOn_ISO := Some "2024-01-01T00:00:00.000Z" |} |}.

(** The address is configured but is no URL: the client is constructed,
    and the request made by [getSecret] fails with what [new URL] throws. *)
Definition address_not_a_url : Broker.world :=
  {| Broker.AZURE_KEY_VAULT_URL := Some "kv.vault.azure.net";
     Broker.credential_throws := None;
     Broker.client_throws := fun _ => None;
     Broker.getSecret_answer := fun _ => inl Scenario.type_error_invalid_url |}.

(** No address is configured, and the credential constructor rejects the
    tenant id it is given. *)
Definition placeholder_and_bad_tenant : Broker.world :=
  {| Broker.AZURE_KEY_VAULT_URL := None;
     Broker.credential_throws := Some (new_Error "Invalid tenant id provided.");
     Broker.client_throws := fun _ => None;
     Broker.getSecret_answer := fun _ =>
       inr {| Broker.secret_value := None; Broker.createdOn_ISO := None |} |}.

(** The listing script with a subscription and three groups, one of them
    without a name. *)
Definition three_groups : ListResourceGroups.world :=
  {| ListResourceGroups.AZURE_SUBSCRIPTION_ID := Some "0000-1111";
     ListResourceGroups.credential_throws := None;
     ListResourceGroups.client_throws := None;
     ListResourceGroups.listed := [Some "rg-one"; None; Some "rg-three"];
     ListResourceGroups.list_throws := None |}.

End Cases.

(** The remote calls of a trace, in order. *)
Definition remote_calls (evs : list JS.event) : list JS.event :=
  List.filter JS.is_remote_call evs.

(** The sleeps and the secret writes of a provisioning trace, in the
    order they happen. *)
Definition is_sleep (ev : Setup.event) : bool :=
  match ev with
  | Setup.sleep _ => true
  | _ => false
  end.

Definition timeline (evs : list Setup.event) : list Setup.event :=
  List.filter (fun ev => is_sleep ev || Setup.is_attempt ev) evs.

(** What pass number [i] of the retry loop (from 0) does up to and
    including its attempt, read off the loop's body: the first pass
    attempts at once; a later one announces the attempt, sleeps the
    current delay and then attempts. *)
Definition expected_pass (p : Setup.retry_params) (i : nat)
  : list Setup.event :=
  ((if (i =? 0)%nat then []
    else [Setup.print_status
            ("Attempt " ++ decimal (Z.of_nat i + 1) ++ "/"
             ++ decimal (Setup.MAX_RETRIES p) ++ " - Waiting "
             ++ decimal (Setup.delay_seq p (i - 1))
             ++ " seconds for RBAC propagation...");
          Setup.sleep (Setup.delay_seq p (i - 1))])
     ++ [Setup.az_keyvault_secret_set])%list.

Definition expected_passes (p : Setup.retry_params) (n : nat)
  : list Setup.event :=
  List.flat_map (expected_pass p) (seq 0 n).

(** The error lines of a provisioning trace. *)
Definition is_print_error (ev : Setup.event) : bool :=
  match ev with
  | Setup.print_error _ => true
  | _ => false
  end.

Definition error_lines (evs : list Setup.event) : list Setup.event :=
  List.filter is_print_error evs.

(* ================================================================== *)
(** ** The provisioning scripts from their first line *)
(* ================================================================== *)

Module FullSetup.
Import Setup.

(** The external commands of the part before the role assignment. *)
Inductive command : Type :=
| openssl_rand_hex
| az_account_show
| az_account_show_query (query : string)
| az_ad_signed_in_user_show_query (query : string)
| az_role_definition_list
| read_REPLY
| az_group_create
| az_keyvault_create
| az_account_set
| az_keyvault_show.

(** One thing a whole script does: it runs one of those commands, or does
    what the tail's traces already record (a printed line, a sleep, the
    commands of the tail). *)
Inductive step : Type :=
| run (c : command)
| does (ev : event).

(** What the commands of the first part answer, around the answers the
    tail needs: the exit status of each command in the order the scripts
    run them, what the user typed at the prompt, and the outputs that only
    the first part prints. *)
Record environment : Type := mk_environment {
  tail_world : world;
  SUBSCRIPTION_NAME : string;
  TENANT_ID : string;
  KEY_VAULT_ID_first : string;
  REPLY : string;
  openssl_status : Z;
  login_status : Z;
  subscription_id_status : Z;
  subscription_name_status : Z;
  tenant_id_status : Z;
  user_object_id_status : Z;
  user_upn_status : Z;
  role_definition_status : Z;
  read_status : Z;
  group_create_status : Z;
  keyvault_create_status : Z;
  account_set_status : Z;
  keyvault_show_status : Z;
  keyvault_show_again_status : Z
}.

(** A piece of a whole script. *)
Definition full (A : Type) : Type := list step * outcome A.

Definition unit_full {A : Type} (a : A) : full A := ([], ok a).

Definition bind_full {A B : Type} (c : full A) (f : A -> full B) : full B :=
  match c with
  | (steps, ok a) => let '(steps', r) := f a in (steps ++ steps', r)%list
  | (steps, exit n) => (steps, exit n)
  | (steps, out_of_fuel) => (steps, out_of_fuel)
  end.

Declare Scope full_scope.
Delimit Scope full_scope with full.
Notation "x <- c ;; k" := (bind_full c (fun x => k))
  (at level 61, c at next level, right associativity) : full_scope.
Notation "c ;; k" := (bind_full c (fun _ => k))
  (at level 61, right associativity) : full_scope.

Definition say (ev : event) : full unit := ([does ev], ok tt).

(** A simple command, or an assignment from a command substitution, at
    statement level: [set -e] ends the script with its status when that is
    not 0. *)
Definition plain (c : command) (status : Z) : full Z :=
  ([run c], if status =? 0 then ok 0 else exit status).

(** A command in the condition of an [if]. *)
Definition tested (c : command) (status : Z) : full Z := ([run c], ok status).

(** [exit n]. *)
Definition stop {A : Type} (n : Z) : full A := ([], exit n).

(** The tail inside the whole script. *)
Definition lift {A : Type} (c : sh A) : full A := (List.map does (fst c), snd c).

(** [[[ $REPLY =~ ^[Yy]$ ]]]: the reply is the single letter y, in either
    case. *)
Definition confirmed (reply : string) : bool :=
  String.eqb reply "y" || String.eqb reply "Y".

(** The generated suffix and the check that the user is signed in. *)
Definition sign_in_check (e : environment) : full unit :=
  (plain openssl_rand_hex (openssl_status e) ;;
   say (print_status "Starting Azure Key Vault setup for brokered authentication sample...") ;;
   say (print_status "Checking Azure CLI authentication...") ;;
   status <- tested az_account_show (login_status e) ;;
   if status =? 0 then unit_full tt
   else
     say (print_error "You are not logged into Azure CLI. Please run 'az login' first.") ;;
     stop 1)%full.

(** The three lines that close the account information. *)
Definition print_naming (e : environment) : full unit :=
  (say (print_status ("Resource prefix: " ++ RESOURCE_PREFIX)) ;;
   say (print_status ("Random suffix: " ++ RANDOM_SUFFIX (tail_world e))) ;;
   say (print_status ("Location: " ++ LOCATION)))%full.

(** The announcement of what will be created and the prompt. Any reply
    other than y or Y cancels, with status 0. *)
Definition confirm (e : environment) : full unit :=
  (say (echo EmptyString) ;;
   say (print_status "Resources to be created:") ;;
   say (echo ("  - Resource Group: " ++ RESOURCE_GROUP_NAME (tail_world e))) ;;
   say (echo ("  - Key Vault: " ++ KEY_VAULT_NAME (tail_world e))) ;;
   say (echo EmptyString) ;;
   plain read_REPLY (read_status e) ;;
   say (echo EmptyString) ;;
   if confirmed (REPLY e) then unit_full tt
   else say (print_warning "Operation cancelled by user.") ;; stop 0)%full.

(** The resource group and the vault. Each creation is a simple command
    followed by a test of [$?]. *)
Definition create_resources (e : environment) : full unit :=
  (say (print_status ("Creating resource group: "
                      ++ RESOURCE_GROUP_NAME (tail_world e) ++ "...")) ;;
   status <- plain az_group_create (group_create_status e) ;;
   (if status =? 0
    then say (print_success "Resource group created successfully.")
    else say (print_error "Failed to create resource group.") ;; stop 1) ;;
   say (print_status ("Creating Key Vault: "
                      ++ KEY_VAULT_NAME (tail_world e) ++ "...")) ;;
   status <- plain az_keyvault_create (keyvault_create_status e) ;;
   (if status =? 0
    then say (print_success "Key Vault created successfully.")
    else say (print_error "Failed to create Key Vault.") ;; stop 1) ;;
   say (print_status "Waiting for Key Vault to be fully provisioned...") ;;
   say (sleep 10))%full.

Definition using_subscription (e : environment) : string :=
  "Using subscription: " ++ SUBSCRIPTION_NAME e
  ++ " (" ++ SUBSCRIPTION_ID (tail_world e) ++ ")".

(** The first script. *)
Definition first (e : environment) : full unit :=
  (sign_in_check e ;;
   plain (az_account_show_query "id") (subscription_id_status e) ;;
   plain (az_account_show_query "name") (subscription_name_status e) ;;
   plain (az_ad_signed_in_user_show_query "id") (user_object_id_status e) ;;
   plain (az_ad_signed_in_user_show_query "userPrincipalName")
     (user_upn_status e) ;;
   say (print_success ("Authenticated as: " ++ CURRENT_USER_UPN (tail_world e))) ;;
   say (print_status (using_subscription e)) ;;
   print_naming e ;;
   confirm e ;;
   create_resources e ;;
   plain az_keyvault_show (keyvault_show_status e) ;;
   lift (First.script (tail_world e)))%full.

(** The second script. *)
Definition second (e : environment) : full unit :=
  (sign_in_check e ;;
   plain (az_account_show_query "id") (subscription_id_status e) ;;
   plain (az_account_show_query "name") (subscription_name_status e) ;;
   plain (az_account_show_query "tenantId") (tenant_id_status e) ;;
   plain (az_ad_signed_in_user_show_query "id") (user_object_id_status e) ;;
   plain (az_ad_signed_in_user_show_query "userPrincipalName")
     (user_upn_status e) ;;
   say (print_success ("Authenticated as: " ++ CURRENT_USER_UPN (tail_world e))) ;;
   say (print_status (using_subscription e)) ;;
   say (print_status ("Tenant ID: " ++ TENANT_ID e)) ;;
   say (print_status "Verifying RBAC access...") ;;
   status <- tested az_role_definition_list (role_definition_status e) ;;
   (if status =? 0 then unit_full tt
    else say (print_warning "Cannot access role definitions. This may indicate insufficient permissions.")) ;;
   print_naming e ;;
   confirm e ;;
   create_resources e ;;
   say (print_status ("Setting subscription context to: "
                      ++ SUBSCRIPTION_ID (tail_world e) ++ "...")) ;;
   plain az_account_set (account_set_status e) ;;
   say (print_status "Getting Key Vault resource ID...") ;;
   plain az_keyvault_show (keyvault_show_status e) ;;
   say (print_status ("Key Vault ID: " ++ KEY_VAULT_ID_first e)) ;;
   say (print_status ("Current user object ID: "
                      ++ CURRENT_USER_OBJECT_ID (tail_world e))) ;;
   say (print_status "Assigning 'Key Vault Secrets Officer' role to current user...") ;;
   plain az_keyvault_show (keyvault_show_again_status e) ;;
   say (print_status ("Key Vault ID: " ++ KEY_VAULT_ID (tail_world e))) ;;
   lift (Second.script (tail_world e)))%full.

(** Whether a run gets as far as creating the resource group: the suffix
    was generated, the user is signed in, the account queries answered,
    the prompt was read and the reply confirms. *)
Definition reaches_creation_first (e : environment) : bool :=
  (openssl_status e =? 0) && (login_status e =? 0)
  && (subscription_id_status e =? 0) && (subscription_name_status e =? 0)
  && (user_object_id_status e =? 0) && (user_upn_status e =? 0)
  && (read_status e =? 0) && confirmed (REPLY e).

Definition reaches_creation_second (e : environment) : bool :=
  (openssl_status e =? 0) && (login_status e =? 0)
  && (subscription_id_status e =? 0) && (subscription_name_status e =? 0)
  && (tenant_id_status e =? 0)
  && (user_object_id_status e =? 0) && (user_upn_status e =? 0)
  && (read_status e =? 0) && confirmed (REPLY e).

Definition not_signed_in_line : string :=
  "You are not logged into Azure CLI. Please run 'az login' first.".

(** The commands that create or change something in Azure. *)
Definition changes_azure (s : step) : bool :=
  match s with
  | run az_group_create | run az_keyvault_create => true
  | does az_role_assignment_create | does az_keyvault_secret_set => true
  | _ => false
  end.

(** The error lines of a whole trace. *)
Definition error_steps (steps : list step) : list step :=
  List.filter (fun s => match s with
                        | does (print_error _) => true
                        | _ => false
                        end) steps.

(** An environment in which every command of the first part answers 0;
    the reply and the tail's answers are given. *)
Definition all_well (reply : string) (w : world) : environment :=
  {| tail_world := w;
     SUBSCRIPTION_NAME := "Pay-As-You-Go";
     TENANT_ID := "2222-3333";
     KEY_VAULT_ID_first := KEY_VAULT_ID w;
     REPLY := reply;
     openssl_status := 0;
     login_status := 0;
     subscription_id_status := 0;
     subscription_name_status := 0;
     tenant_id_status := 0;
     user_object_id_status := 0;
     user_upn_status := 0;
     role_definition_status := 0;
     read_status := 0;
     group_create_status := 0;
     keyvault_create_status := 0;
     account_set_status := 0;
     keyvault_show_status := 0;
     keyvault_show_again_status := 0 |}.

(** Not signed in: [az account show] answers 1. *)
Definition signed_out (w : world) : environment :=
  {| tail_world := w;
     SUBSCRIPTION_NAME := EmptyString;
     TENANT_ID := EmptyString;
     KEY_VAULT_ID_first := EmptyString;
     REPLY := "y";
     openssl_status := 0;
     login_status := 1;
     subscription_id_status := 1;
     subscription_name_status := 1;
     tenant_id_status := 1;
     user_object_id_status := 1;
     user_upn_status := 1;
     role_definition_status := 1;
     read_status := 0;
     group_create_status := 1;
     keyvault_create_status := 1;
     account_set_status := 1;
     keyvault_show_status := 1;
     keyvault_show_again_status := 1 |}.

(** Signed in and confirmed, but the resource group cannot be created:
    [az group create] answers 3. *)
Definition group_refused (w : world) : environment :=
  {| tail_world := w;
     SUBSCRIPTION_NAME := "Pay-As-You-Go";
     TENANT_ID := "2222-3333";
     KEY_VAULT_ID_first := KEY_VAULT_ID w;
     REPLY := "Y";
     openssl_status := 0;
     login_status := 0;
     subscription_id_status := 0;
     subscription_name_status := 0;
     tenant_id_status := 0;
     user_object_id_status := 0;
     user_upn_status := 0;
     role_definition_status := 0;
     read_status := 0;
     group_create_status := 3;
     keyvault_create_status := 0;
     account_set_status := 0;
     keyvault_show_status := 0;
     keyvault_show_again_status := 0 |}.

End FullSetup.

(* ================================================================== *)
(** ** Properties of the outcome classifier *)
(* ================================================================== *)

Section Strings.

Lemma prefix_app (s t : string) : String.prefix s (s ++ t) = true.
Proof.
  induction s as [|c s IH]; simpl.
  - destruct t; reflexivity.
  - destruct (ascii_dec c c) as [_|n]; [exact IH | contradiction].
Qed.

Lemma prefix_app_l (n a b : string) :
  String.prefix n a = true -> String.prefix n (a ++ b) = true.
Proof.
  revert a; induction n as [|c n IH]; intros a H.
  - destruct (a ++ b); reflexivity.
  - destruct a as [|c' a]; simpl in *; [discriminate|].
    destruct (ascii_dec c c'); [auto | discriminate].
Qed.

Lemma includes_prefix (h n : string) :
  String.prefix n h = true -> JS.includes h n = true.
Proof. intros H. destruct h; cbn [JS.includes]; rewrite H; reflexivity. Qed.

Lemma includes_app_r (a b n : string) :
  JS.includes b n = true -> JS.includes (a ++ b) n = true.
Proof.
  intros H. induction a as [|c a IH]; cbn [JS.includes append]; [exact H|].
  rewrite IH. destruct (String.prefix n (String c (a ++ b))); reflexivity.
Qed.

Lemma includes_app_l (a b n : string) :
  JS.includes a n = true -> JS.includes (a ++ b) n = true.
Proof.
  induction a as [|c a IH]; intros H.
  - destruct n as [|c n]; [|discriminate].
    apply includes_prefix. destruct (EmptyString ++ b); reflexivity.
  - cbn [JS.includes append] in H |- *.
    destruct (String.prefix n (String c a)) eqn:E.
    + pose proof (prefix_app_l n (String c a) b E) as E'.
      cbn [append] in E'. rewrite E'. reflexivity.
    + rewrite (IH H).
      destruct (String.prefix n (String c (a ++ b))); reflexivity.
Qed.

Lemma includes_self_after (a m : string) : JS.includes (a ++ m) m = true.
Proof.
  apply includes_app_r, includes_prefix.
  rewrite <- (prefix_app m EmptyString) at 1.
  f_equal. induction m; simpl; congruence.
Qed.

End Strings.

Section Classifier.
Import JS Broker.

(** Every code the [catch] block produces is the exit status of one of
    the outcomes of a failure. *)
Lemma catch_block_code (error : thrown) :
  exists c, c <> Success /\ snd (catch_block error) = exit_status c.
Proof.
  unfold catch_block, unexpected.
  destruct (instanceof_AuthenticationError error);
    [exists AuthenticationFailed; split; [discriminate | reflexivity]|].
  destruct (instanceof_Error error && String.eqb (name error) "RestError").
  - destruct (truthy (statusCode error)).
    + exists ServiceRequestFailed; split; [discriminate | reflexivity].
    + exists UnexpectedError; split; [discriminate | reflexivity].
  - destruct (instanceof_Error error && includes (message error) "Invalid URL").
    + exists InvalidConfiguration; split; [discriminate | reflexivity].
    + exists UnexpectedError; split; [discriminate | reflexivity].
Qed.

(** The first script ends with the code its [try]/[catch] computed. *)
Lemma toplevel_exits_with_outcome (w : world) :
  credential_throws w = None ->
  result (TopLevel.script w) = exited (snd (TopLevel.outcome w)).
Proof.
  intros H. unfold TopLevel.script. rewrite H.
  destruct (TopLevel.outcome w); reflexivity.
Qed.

(** The second script ends with status 0 whatever [main] resolved with. *)
Lemma main_script_exits_0 (w : world) :
  result (Main.script w) = exited 0.
Proof. unfold Main.script. destruct (Main.main w); reflexivity. Qed.

(** C1 (the second script departs from the documented exit statuses).
    When [getSecret] is refused with an authentication failure, both
    scripts compute the code of AuthenticationFailed; the first one exits
    with status 2, but the second one, whose [then] continuation drops the
    number [main] resolved with, prints its closing line and exits with
    status 0, as it does on every run. *)
Theorem main_script_drops_outcome_code :
  snd (TopLevel.outcome Scenario.sign_in_refused)
    = exit_status AuthenticationFailed
  /\ result (TopLevel.script Scenario.sign_in_refused)
    = exited (exit_status AuthenticationFailed)
  /\ snd (Main.main Scenario.sign_in_refused)
    = exit_status AuthenticationFailed
  /\ result (Main.script Scenario.sign_in_refused)
    = exited (exit_status Success)
  /\ List.last (events (Main.script Scenario.sign_in_refused))
       (console_log EmptyString) = console_log "✅ Done"
  /\ (forall w, status_of (result (Main.script w)) = 0).
Proof.
  repeat split; try reflexivity.
  intros w. rewrite main_script_exits_0. reflexivity.
Qed.

(** C2. A failure that is an [AuthenticationError] is classified
    AuthenticationFailed, whatever name and status code it carries, and
    the line printed is the fixed prefix followed by the failure's own
    message, so it contains that message. *)
Theorem authentication_failure_first (error : thrown) :
  instanceof_AuthenticationError error = true ->
  snd (catch_block error) = exit_status AuthenticationFailed
  /\ fst (catch_block error) = "🔐 Authentication failed: " ++ message error
  /\ includes (fst (catch_block error)) (message error) = true.
Proof.
  intros H. unfold catch_block. rewrite H. cbn [fst snd].
  repeat split. apply includes_self_after.
Qed.

Lemma authentication_failure_first_witness :
  instanceof_AuthenticationError Scenario.authentication_error_with_401 = true
  /\ statusCode Scenario.authentication_error_with_401 = number 401 eq_refl
  /\ snd (catch_block Scenario.authentication_error_with_401) = 2
  /\ fst (catch_block Scenario.authentication_error_with_401)
     = "🔐 Authentication failed: AADSTS70011: invalid scope".
Proof.
  destruct (authentication_failure_first
              Scenario.authentication_error_with_401 eq_refl)
    as (Hc & Hm & _).
  split; [reflexivity | split; [reflexivity | split; [exact Hc | exact Hm]]].
Defined.

(** C3 as stated fails: a failure named RestError that has no status code
    and whose message is "Invalid URL" is no authentication failure and
    carries no numeric status code, yet it is classified UnexpectedError. *)
Lemma rest_error_invalid_url_is_unexpected :
  instanceof_AuthenticationError Scenario.rest_error_invalid_url = false
  /\ (forall n safe,
        statusCode Scenario.rest_error_invalid_url <> number n safe)
  /\ includes (message Scenario.rest_error_invalid_url) "Invalid URL" = true
  /\ catch_block Scenario.rest_error_invalid_url
     = ("💥 An unexpected error occurred: Invalid URL",
        exit_status UnexpectedError)
  /\ snd (catch_block Scenario.rest_error_invalid_url)
     <> exit_status InvalidConfiguration.
Proof. repeat split; try discriminate. Qed.

(** C3, amended. An [Error] that is no authentication failure and whose
    message contains "Invalid URL" is classified InvalidConfiguration when
    its name is not "RestError", with or without a status code. When its
    name is "RestError" and its status code is missing (falsy), it leaves
    the chain through the RestError branch and is classified
    UnexpectedError with its own message. *)
Theorem invalid_url_unless_rest_error (error : thrown) :
  instanceof_AuthenticationError error = false ->
  instanceof_Error error = true ->
  includes (message error) "Invalid URL" = true ->
  (name error <> "RestError" ->
     catch_block error = (msg_invalid_url, exit_status InvalidConfiguration))
  /\ (name error = "RestError" -> truthy (statusCode error) = false ->
     catch_block error
     = ("💥 An unexpected error occurred: " ++ message error,
        exit_status UnexpectedError)).
Proof.
  intros Ha He Hm. unfold catch_block, unexpected.
  rewrite Ha, He, Hm. cbn [andb]. split.
  - intros Hn. apply String.eqb_neq in Hn. rewrite Hn. reflexivity.
  - intros Hn Ht. apply String.eqb_eq in Hn. rewrite Hn, Ht. reflexivity.
Qed.

Lemma invalid_url_unless_rest_error_witness :
  catch_block Scenario.type_error_invalid_url
    = (msg_invalid_url, 4)
  /\ catch_block Scenario.rest_error_invalid_url
    = ("💥 An unexpected error occurred: Invalid URL", 1).
Proof.
  split.
  - apply (invalid_url_unless_rest_error Scenario.type_error_invalid_url);
      [reflexivity | reflexivity | reflexivity | discriminate].
  - apply (invalid_url_unless_rest_error Scenario.rest_error_invalid_url);
      reflexivity.
Defined.

(** C4 as stated fails: an [Error] that carries the numeric status code
    500 and is no authentication failure, but whose name is not
    "RestError", is classified UnexpectedError. *)
Lemma status_code_without_rest_error_name :
  instanceof_AuthenticationError Scenario.plain_error_with_500 = false
  /\ statusCode Scenario.plain_error_with_500 = number 500 eq_refl
  /\ catch_block Scenario.plain_error_with_500
     = ("💥 An unexpected error occurred: upstream failure",
        exit_status UnexpectedError)
  /\ snd (catch_block Scenario.plain_error_with_500)
     <> exit_status ServiceRequestFailed.
Proof. repeat split; discriminate. Qed.

(** C4, amended. An [Error] named "RestError" that is no authentication
    failure and carries a numeric status code other than 0 is classified
    ServiceRequestFailed; the line printed is the authentication and
    permissions message for 401, the access-denied message for 403, the
    not-found message for 404, and for any other code the generic line
    made of the code in decimal and the failure's own message. On an
    [Error] whose name is not "RestError" the status code is not looked
    at: whatever it is replaced with, the outcome and the line are the
    same. *)
Theorem rest_error_with_status (error : thrown) :
  instanceof_AuthenticationError error = false ->
  instanceof_Error error = true ->
  (name error = "RestError" ->
   forall (n : Z) (safe : safe_integer n = true),
   statusCode error = number n safe ->
   n <> 0 ->
   snd (catch_block error) = exit_status ServiceRequestFailed
   /\ snd (catch_block error) = 3
   /\ (n = 401 ->
       fst (catch_block error)
       = "❌ Authentication failed. Please ensure you're signed in to Azure and have the correct permissions.")
   /\ (n = 403 ->
       fst (catch_block error)
       = "🚫 Access denied. Please check your Azure Key Vault access policies.")
   /\ (n = 404 ->
       fst (catch_block error)
       = "🔍 Secret 'MySecret' not found in the Key Vault. Please verify the secret name and Key Vault URL.")
   /\ (n <> 401 -> n <> 403 -> n <> 404 ->
       fst (catch_block error)
       = "⚠️ Azure Key Vault error (" ++ decimal n ++ "): " ++ message error
       /\ includes (fst (catch_block error)) (decimal n) = true
       /\ includes (fst (catch_block error)) (message error) = true))
  /\ (name error <> "RestError" ->
      forall v : value,
      catch_block (with_statusCode error v) = catch_block error).
Proof.
  intros Ha He. split.
  - intros Hn n safe Hs Hz.
    unfold catch_block, rest_error_message, msg_generic.
    apply String.eqb_eq in Hn. rewrite Ha, He, Hn, Hs. cbn [andb truthy].
    apply Z.eqb_neq in Hz. rewrite Hz. cbn [negb fst snd strict_eq_number].
    split; [reflexivity|].
    split; [reflexivity|].
    split; [intros ->; reflexivity|].
    split; [intros ->; reflexivity|].
    split; [intros ->; reflexivity|].
    intros H1 H3 H4.
    apply Z.eqb_neq in H1, H3, H4. rewrite H1, H3, H4. cbn [template].
    split; [reflexivity|]. split.
    + apply includes_app_r, includes_app_l, includes_prefix.
      rewrite <- (prefix_app (decimal n) EmptyString) at 1.
      f_equal. induction (decimal n); simpl; congruence.
    + apply includes_app_r, includes_app_r, includes_self_after.
  - intros Hn v. apply String.eqb_neq in Hn.
    unfold catch_block, unexpected, instanceof_AuthenticationError,
      instanceof_Error, with_statusCode in *.
    cbn [proto name message statusCode String_of].
    rewrite Hn, !andb_false_r. reflexivity.
Qed.

Lemma rest_error_with_status_witness :
  catch_block Scenario.rest_error_503
  = ("⚠️ Azure Key Vault error (503): Service Unavailable", 3)
  /\ catch_block (with_statusCode Scenario.plain_error_with_500 (text "404"))
     = catch_block Scenario.plain_error_with_500.
Proof.
  destruct (rest_error_with_status Scenario.rest_error_503 eq_refl eq_refl)
    as [Hrest _].
  destruct (rest_error_with_status Scenario.plain_error_with_500
              eq_refl eq_refl) as [_ Hother].
  assert (Hz : 503 <> 0) by discriminate.
  destruct (Hrest eq_refl 503 eq_refl eq_refl Hz)
    as (Hc & _ & _ & _ & _ & Hg).
  assert (H1 : 503 <> 401) by discriminate.
  assert (H3 : 503 <> 403) by discriminate.
  assert (H4 : 503 <> 404) by discriminate.
  destruct (Hg H1 H3 H4) as (Hm & _).
  assert (Hn : name Scenario.plain_error_with_500 <> "RestError")
    by discriminate.
  split; [|exact (Hother Hn (text "404"))].
  rewrite (surjective_pairing (catch_block Scenario.rest_error_503)).
  rewrite Hc, Hm. reflexivity.
Defined.

End Classifier.

(* ================================================================== *)
(** ** Properties of the scripts' boundaries *)
(* ================================================================== *)

Section Boundaries.
Import JS.


Lemma try_body_placeholder (closing : list event) (w : Broker.world) :
  includes (Broker.vaultUri w) Broker.placeholder = true ->
  Broker.try_body closing w = (Broker.placeholder_lines (Broker.vaultUri w), inr 4).
Proof. intros H. unfold Broker.try_body. rewrite H. reflexivity. Qed.




(** C8 as stated fails: started without [AZURE_SUBSCRIPTION_ID], the
    listing script throws at module top level, before [main] and its
    [catch] exist; the exception escapes and the process prints nothing
    of its own. *)
Lemma unset_subscription_escapes :
  ListResourceGroups.script Scenario.subscription_unset
  = {| events := [];
       result := uncaught
         (new_Error "AZURE_SUBSCRIPTION_ID environment variable is not set.") |}
  /\ escapes (ListResourceGroups.script Scenario.subscription_unset) = true.
Proof. split; reflexivity. Qed.

Lemma catch_block_code_range (error : thrown) :
  1 <= snd (Broker.catch_block error) <= 4.
Proof.
  destruct (catch_block_code error) as [c [Hc ->]].
  destruct c; cbn; try lia. contradiction.
Qed.

(** What the [try] block does when one of its two SDK calls throws. *)
Lemma try_body_throws (closing : list event) (w : Broker.world) (err : thrown) :
  includes (Broker.vaultUri w) Broker.placeholder = false ->
  Broker.client_throws w (Broker.vaultUri w) = Some err
  \/ (Broker.client_throws w (Broker.vaultUri w) = None
      /\ Broker.getSecret_answer w (Broker.vaultUri w) = inl err) ->
  exists evs, Broker.try_body closing w = (evs, inl err).
Proof.
  intros Hp [Hc|[Hc Hg]]; unfold Broker.try_body; rewrite Hp, Hc.
  - eexists. reflexivity.
  - rewrite Hg. eexists. reflexivity.
Qed.

(** C8, amended. Failures raised inside a script's guarded region are
    caught. In the listing script with a subscription id, whatever
    [main] throws is logged by its [catch] and the process ends with
    status 0. In the credential scripts a failure thrown by the client
    constructor or by [getSecret] is classified by the [catch] block: the
    line that block chooses is the last one printed, the code it computes
    (one of 1 to 4, and 2 with the authentication line for an
    [AuthenticationError]) is the first script's exit status and what
    [main] of the second resolves with; so is, in the second script, a
    failure of the credential constructor, which sits inside its [try].
    The second script never ends on an uncaught exception; the first one
    does not once its credential exists, and does when the credential
    constructor, which sits before its [try], throws. The listing script's
    guard on a missing subscription id is outside the guarded region too:
    its exception is not caught. *)
Theorem failures_caught_inside_guarded_region
    (lw : ListResourceGroups.world) (bw : Broker.world) :
  (ListResourceGroups.missing (ListResourceGroups.AZURE_SUBSCRIPTION_ID lw)
     = false ->
     result (ListResourceGroups.script lw) = exited 0
     /\ forall id err evs,
        ListResourceGroups.AZURE_SUBSCRIPTION_ID lw = Some id ->
        ListResourceGroups.main id lw = (evs, Some err) ->
        List.last (events (ListResourceGroups.script lw))
          (console_log EmptyString) = console_error_value err)
  /\ (ListResourceGroups.missing (ListResourceGroups.AZURE_SUBSCRIPTION_ID lw)
        = true ->
      escapes (ListResourceGroups.script lw) = true)
  /\ escapes (Broker.Main.script bw) = false
  /\ (Broker.credential_throws bw = None ->
      escapes (Broker.TopLevel.script bw) = false)
  /\ (forall err,
      Broker.credential_throws bw = None ->
      includes (Broker.vaultUri bw) Broker.placeholder = false ->
      Broker.client_throws bw (Broker.vaultUri bw) = Some err
      \/ (Broker.client_throws bw (Broker.vaultUri bw) = None
          /\ Broker.getSecret_answer bw (Broker.vaultUri bw) = inl err) ->
      result (Broker.TopLevel.script bw)
      = exited (snd (Broker.catch_block err))
      /\ List.last (events (Broker.TopLevel.script bw))
           (console_log EmptyString)
         = console_error (fst (Broker.catch_block err))
      /\ snd (Broker.Main.main bw) = snd (Broker.catch_block err)
      /\ List.last (fst (Broker.Main.main bw)) (console_log EmptyString)
         = console_error (fst (Broker.catch_block err))
      /\ 1 <= snd (Broker.catch_block err) <= 4
      /\ (instanceof_AuthenticationError err = true ->
          result (Broker.TopLevel.script bw) = exited 2
          /\ snd (Broker.Main.main bw) = 2
          /\ List.last (events (Broker.TopLevel.script bw))
               (console_log EmptyString)
             = console_error ("🔐 Authentication failed: " ++ message err)))
  /\ (forall err,
      Broker.credential_throws bw = Some err ->
      Broker.Main.main bw
      = ([new_InteractiveBrowserCredential;
          console_error (fst (Broker.catch_block err))],
         snd (Broker.catch_block err))
      /\ 1 <= snd (Broker.catch_block err) <= 4
      /\ result (Broker.TopLevel.script bw) = uncaught err).
Proof.
  split; [|split; [|split; [|split; [|split]]]].
  - intros Hm. unfold ListResourceGroups.script. rewrite Hm. split.
    + destruct (ListResourceGroups.main _ lw) as [evs [err|]]; reflexivity.
    + intros id err evs Hid Hmain. rewrite Hid. cbn [template_opt].
      rewrite Hmain. cbn [events].
      change (console_log ("Using Subscription ID: " ++ id)
                :: evs ++ [console_error_value err])%list
        with ((console_log ("Using Subscription ID: " ++ id) :: evs)
                ++ [console_error_value err])%list.
      apply last_last.
  - intros Hm. unfold ListResourceGroups.script. rewrite Hm. reflexivity.
  - unfold escapes. rewrite main_script_exits_0. reflexivity.
  - intros Hc. unfold escapes.
    rewrite (toplevel_exits_with_outcome bw Hc). reflexivity.
  - intros err Hc Hp Hthrow.
    destruct (try_body_throws [console_log "✅ Done"] bw err Hp Hthrow)
      as [evs1 H1].
    destruct (try_body_throws [] bw err Hp Hthrow) as [evs0 H0].
    assert (Ht : Broker.TopLevel.script bw
                 = {| events := (new_InteractiveBrowserCredential :: evs1
                                 ++ [console_error (fst (Broker.catch_block err))])%list;
                      result := exited (snd (Broker.catch_block err)) |}).
    { unfold Broker.TopLevel.script, Broker.TopLevel.outcome.
      rewrite Hc, H1. unfold Broker.try_catch.
      destruct (Broker.catch_block err). reflexivity. }
    assert (Hmain : Broker.Main.main bw
                    = ((new_InteractiveBrowserCredential :: evs0
                        ++ [console_error (fst (Broker.catch_block err))])%list,
                       snd (Broker.catch_block err))).
    { unfold Broker.Main.main. rewrite Hc, H0. unfold Broker.try_catch.
      destruct (Broker.catch_block err). reflexivity. }
    assert (Hlast : forall evs line,
              List.last (new_InteractiveBrowserCredential :: evs
                         ++ [console_error line])%list
                (console_log EmptyString) = console_error line).
    { intros evs line.
      change (new_InteractiveBrowserCredential :: evs ++ [console_error line])%list
        with ((new_InteractiveBrowserCredential :: evs)
                ++ [console_error line])%list.
      apply last_last. }
    rewrite Ht, Hmain. cbn [events result fst snd]. rewrite !Hlast.
    repeat split; try apply catch_block_code_range.
    + unfold Broker.catch_block. rewrite H. reflexivity.
    + unfold Broker.catch_block. rewrite H. reflexivity.
    + unfold Broker.catch_block. rewrite H. reflexivity.
  - intros err Hc. repeat split; try apply catch_block_code_range.
    + unfold Broker.Main.main. rewrite Hc. unfold Broker.try_catch.
      destruct (Broker.catch_block err). reflexivity.
    + unfold Broker.TopLevel.script. rewrite Hc. reflexivity.
Qed.

Lemma failures_caught_inside_guarded_region_witness :
  result (ListResourceGroups.script Scenario.listing_fails) = exited 0
  /\ List.last (events (ListResourceGroups.script Scenario.listing_fails))
       (console_log EmptyString)
     = console_error_value Scenario.rest_error_503
  /\ escapes (ListResourceGroups.script Scenario.subscription_unset) = true
  /\ escapes (Broker.TopLevel.script Scenario.sign_in_refused) = false
  /\ result (Broker.TopLevel.script Scenario.sign_in_refused) = exited 2
  /\ snd (Broker.Main.main Cases.placeholder_and_bad_tenant) = 1.
Proof.
  destruct (failures_caught_inside_guarded_region
              Scenario.listing_fails Scenario.sign_in_refused)
    as (Hl & _ & _ & Ht & Hclass & _).
  destruct (Hl eq_refl) as (Hr & Hlast).
  destruct (failures_caught_inside_guarded_region
              Scenario.subscription_unset Cases.placeholder_and_bad_tenant)
    as (_ & Hu & _ & _ & _ & Hcred).
  destruct (Hclass Scenario.authentication_error_with_401 eq_refl eq_refl
              (or_intror (conj eq_refl eq_refl)))
    as (_ & _ & _ & _ & _ & Hauth).
  destruct (Hauth eq_refl) as (H2 & _).
  destruct (Hcred (new_Error "Invalid tenant id provided.") eq_refl)
    as (Hm & _).
  split; [exact Hr|].
  split; [exact (Hlast _ _ _ eq_refl eq_refl)|].
  split; [exact (Hu eq_refl)|].
  split; [exact (Ht eq_refl)|].
  split; [exact H2 | rewrite Hm; reflexivity].
Defined.

End Boundaries.

(* ================================================================== *)
(** ** Properties of the retry loop *)
(* ================================================================== *)

Section Traces.
Import Setup.

Lemma sleeps_app (a b : list event) : sleeps (a ++ b) = (sleeps a ++ sleeps b)%list.
Proof.
  induction a as [|ev a IH]; [reflexivity|].
  destruct ev; simpl; rewrite IH; reflexivity.
Qed.

Lemma attempts_app (a b : list event) :
  attempts (a ++ b) = (attempts a + attempts b)%nat.
Proof. unfold attempts. rewrite filter_app, length_app. reflexivity. Qed.

Lemma wrap64_small (x : Z) : - 2 ^ 63 <= x < 2 ^ 63 -> wrap64 x = x.
Proof. intros H. unfold wrap64. rewrite Z.mod_small; lia. Qed.

End Traces.

Section DelaySequence.
Import Setup.
Variable p : retry_params.
Hypothesis accepted : contract p.

Lemma capped_delay_bounds (i : nat) :
  INITIAL_DELAY p <= capped_delay p i <= DELAY_CAP p.
Proof.
  destruct accepted. unfold capped_delay. split; [|apply Z.le_min_r].
  apply Z.min_glb; nia.
Qed.

(** On the numbers of the contract, the script's update expression is a
    saturating addition along the closed-form sequence. *)
Lemma next_delay_capped (i : nat) :
  next_delay p (capped_delay p i) = capped_delay p (S i)
  /\ next_delay p (capped_delay p i)
     = Z.min (capped_delay p i + DELAY_INCREMENT p) (DELAY_CAP p).
Proof.
  pose proof (capped_delay_bounds i) as Hb.
  destruct accepted as [_ _ Hlo Hle Hinc Hhi [m Hm]].
  unfold next_delay, capped_delay in *.
  rewrite Nat2Z.inj_succ.
  destruct (Z.ltb_spec
              (Z.min (INITIAL_DELAY p + Z.of_nat i * DELAY_INCREMENT p)
                 (DELAY_CAP p)) (DELAY_CAP p)) as [Hlt|Hge].
  - assert (Hi : Z.of_nat i < m) by nia.
    rewrite wrap64_small by lia.
    split; rewrite !Z.min_l; nia.
  - rewrite wrap64_small by lia.
    split; rewrite !Z.min_r; lia.
Qed.

Lemma delay_seq_capped (i : nat) : delay_seq p i = capped_delay p i.
Proof.
  induction i as [|i IH].
  - unfold delay_seq, capped_delay. simpl. destruct accepted. lia.
  - unfold delay_seq in *. simpl. rewrite IH. apply next_delay_capped.
Qed.

Lemma capped_delay_step (i : nat) :
  capped_delay p i <= capped_delay p (S i)
  /\ (capped_delay p i = DELAY_CAP p -> capped_delay p (S i) = DELAY_CAP p).
Proof.
  destruct accepted. unfold capped_delay. rewrite Nat2Z.inj_succ. lia.
Qed.

End DelaySequence.

Lemma script_params_contract : Setup.contract Setup.script_params.
Proof.
  constructor; simpl; try lia. exists 4. reflexivity.
Qed.

Section LoopRuns.
Import Setup.
Variable p : retry_params.
Variable status : nat -> Z.
Variable exhausted : list event.

Local Abbreviation pass := (iteration p status exhausted).
Local Abbreviation state_after := (after p status exhausted).

Lemma while_loop_stopped (fuel : nat) (s : retry_state) :
  running p s = false -> while_loop p status exhausted fuel s = Some s.
Proof. intros H. destruct fuel; simpl; rewrite H; reflexivity. Qed.

(** As long as the loop is running, [n] passes of the body are what the
    [while] does first. *)
Lemma while_loop_passes (n : nat) :
  forall (fuel : nat) (s : retry_state),
  (n <= fuel)%nat ->
  (forall m, (m < n)%nat -> running p (Nat.iter m pass s) = true) ->
  while_loop p status exhausted fuel s
  = while_loop p status exhausted (fuel - n) (Nat.iter n pass s).
Proof.
  induction n as [|n IH]; intros fuel s Hf Hr.
  - rewrite Nat.sub_0_r. reflexivity.
  - destruct fuel as [|fuel]; [lia|].
    pose proof (Hr 0%nat ltac:(lia)) as H0. change (running p s = true) in H0.
    cbn [while_loop]. rewrite H0.
    rewrite (IH fuel (pass s)); [|lia|].
    + rewrite <- Nat.iter_succ_r. reflexivity.
    + intros m Hm. rewrite <- Nat.iter_succ_r. apply Hr. lia.
Qed.

(** The delay never changes in the second half of a pass. *)
Lemma attempt_keeps_delay (s : retry_state) :
  RETRY_DELAY (attempt p status exhausted s) = RETRY_DELAY s.
Proof. unfold attempt. destruct (status (calls s) =? 0); reflexivity. Qed.

Lemma pass_delay (s : retry_state) :
  RETRY_DELAY (pass s) = RETRY_DELAY s
  \/ RETRY_DELAY (pass s) = next_delay p (RETRY_DELAY s).
Proof.
  unfold iteration. rewrite attempt_keeps_delay. unfold wait.
  destruct (0 <? RETRY_COUNT s); [right | left]; reflexivity.
Qed.

(** On the numbers of the contract the delay is always a term of the
    closed-form sequence. *)
Lemma delay_on_sequence (n : nat) :
  contract p -> exists j, RETRY_DELAY (state_after n) = capped_delay p j.
Proof.
  intros Hc. induction n as [|n [j IH]].
  - exists 0%nat. rewrite <- (delay_seq_capped p Hc). reflexivity.
  - unfold after in *. rewrite Nat.iter_succ.
    destruct (pass_delay (Nat.iter n pass (initial p))) as [H|H]; rewrite H, IH.
    + exists j. reflexivity.
    + exists (S j). apply (next_delay_capped p Hc).
Qed.

(** The first half of a pass, from a loop head reached through [n]
    failures: nothing is slept before the first attempt, and before any
    later one the current delay is slept and then updated. *)
Lemma wait_at_head (n : nat) (s : retry_state) :
  RETRY_COUNT s = Z.of_nat n ->
  RETRY_DELAY s = delay_seq p (Nat.pred n) ->
  calls s = n ->
  broke s = false ->
  sleeps (out s) = map (delay_seq p) (seq 0 (Nat.pred n)) ->
  attempts (out s) = n ->
  RETRY_COUNT (wait p s) = Z.of_nat n
  /\ RETRY_DELAY (wait p s) = delay_seq p n
  /\ calls (wait p s) = n
  /\ broke (wait p s) = false
  /\ sleeps (out (wait p s)) = map (delay_seq p) (seq 0 n)
  /\ attempts (out (wait p s)) = n.
Proof.
  intros Hcount Hdelay Hcalls Hbroke Hsleeps Hatt. unfold wait.
  destruct n as [|n].
  - rewrite Hcount. cbn [Z.of_nat Z.ltb Z.compare].
    repeat split; assumption.
  - rewrite Hcount.
    replace (0 <? Z.of_nat (S n)) with true by (symmetry; apply Z.ltb_lt; lia).
    cbn [RETRY_COUNT RETRY_DELAY calls out broke Nat.pred] in *.
    repeat split; try assumption.
    + rewrite Hdelay. reflexivity.
    + rewrite sleeps_app, Hsleeps, Hdelay, seq_S, map_app. reflexivity.
    + rewrite attempts_app, Hatt. cbn. lia.
Qed.

(** The state after [n] failed attempts: the count, the delay, and the
    trace, which is free of the exhaustion warnings until the count
    reaches the maximum. *)
Lemma after_failures (n : nat) :
  1 <= MAX_RETRIES p -> MAX_RETRIES p < 2 ^ 63 ->
  Z.of_nat n <= MAX_RETRIES p ->
  (forall i, (i < n)%nat -> status i <> 0) ->
  RETRY_COUNT (state_after n) = Z.of_nat n
  /\ RETRY_DELAY (state_after n) = delay_seq p (Nat.pred n)
  /\ calls (state_after n) = n
  /\ broke (state_after n) = false
  /\ exists pre,
       out (state_after n)
       = (pre ++ if Z.of_nat n =? MAX_RETRIES p then exhausted else [])%list
       /\ sleeps pre = map (delay_seq p) (seq 0 (Nat.pred n))
       /\ attempts pre = n.
Proof.
  intros Hpos Hmax. induction n as [|n IH]; intros Hn Hfail.
  - do 4 (split; [reflexivity|]). exists []. cbn [Z.of_nat].
    replace (0 =? MAX_RETRIES p) with false by (symmetry; apply Z.eqb_neq; lia).
    split; [reflexivity | split; reflexivity].
  - destruct IH as (Hcount & Hdelay & Hcalls & Hbroke & pre & Hout & Hsl & Hat);
      [lia | intros i Hi; apply Hfail; lia |].
    replace (Z.of_nat n =? MAX_RETRIES p) with false in Hout
      by (symmetry; apply Z.eqb_neq; lia).
    rewrite app_nil_r in Hout.
    destruct (wait_at_head n (state_after n)) as (Wc & Wd & Wk & Wb & Ws & Wa);
      try assumption; try (rewrite Hout; assumption).
    unfold after in *. rewrite Nat.iter_succ. unfold iteration at 1 3 5 7 9.
    set (s1 := wait p (Nat.iter n pass (initial p))) in *.
    unfold attempt. rewrite Wk.
    replace (status n =? 0) with false
      by (symmetry; apply Z.eqb_neq, Hfail; lia).
    cbn [RETRY_COUNT RETRY_DELAY calls out broke Nat.pred].
    rewrite Wc, wrap64_small by lia.
    replace (Z.of_nat n + 1) with (Z.of_nat (S n)) by lia.
    repeat split; try assumption.
    exists (out s1 ++ [az_keyvault_secret_set])%list.
    rewrite <- app_assoc. split; [reflexivity | split].
    + rewrite sleeps_app, Ws. simpl. apply app_nil_r.
    + rewrite attempts_app, Wa. cbn. lia.
Qed.

End LoopRuns.

Section RetryRunner.
Import Setup.

(** The loop always ends within its bound, whatever the secret write
    answers. *)
Lemma while_loop_total (p : retry_params) (status : nat -> Z)
    (exhausted : list event) (fuel : nat) :
  MAX_RETRIES p < 2 ^ 63 ->
  forall s, 0 <= RETRY_COUNT s ->
  MAX_RETRIES p - RETRY_COUNT s <= Z.of_nat fuel ->
  exists s', while_loop p status exhausted fuel s = Some s'.
Proof.
  intros Hmax. induction fuel as [|fuel IH]; intros s H0 Hf.
  - exists s. apply while_loop_stopped. unfold running.
    replace (RETRY_COUNT s <? MAX_RETRIES p) with false
      by (symmetry; apply Z.ltb_ge; lia).
    apply andb_false_r.
  - destruct (running p s) eqn:Hr;
      [|exists s; apply while_loop_stopped; exact Hr].
    cbn [while_loop]. rewrite Hr.
    unfold running in Hr. apply andb_true_iff in Hr. destruct Hr as [_ Hlt].
    apply Z.ltb_lt in Hlt.
    assert (Hw : RETRY_COUNT (wait p s) = RETRY_COUNT s).
    { unfold wait. destruct (0 <? RETRY_COUNT s); reflexivity. }
    unfold iteration, attempt.
    destruct (status (calls (wait p s)) =? 0).
    + eexists. apply while_loop_stopped. reflexivity.
    + apply IH; cbn [RETRY_COUNT]; rewrite Hw, wrap64_small; lia.
Qed.

Lemma retry_loop_total (p : retry_params) (status : nat -> Z)
    (exhausted : list event) :
  0 <= MAX_RETRIES p < 2 ^ 63 ->
  exists s, retry_loop p status exhausted = Some s.
Proof.
  intros [H0 Hmax]. unfold retry_loop.
  apply while_loop_total; [exact Hmax | simpl; lia | simpl; lia].
Qed.

(** C5. For numbers within the retry runner's contract, and whatever the
    retried operation answers, the delay held by the loop never decreases
    from one pass to the next, never exceeds the cap, and stays at the cap
    once it is there; every update is the saturating addition of the
    increment. *)
Theorem retry_delay_monotone_capped (p : retry_params) (status : nat -> Z)
    (exhausted : list event) (n : nat) :
  contract p ->
  let d := RETRY_DELAY (after p status exhausted n) in
  let d' := RETRY_DELAY (after p status exhausted (S n)) in
  INITIAL_DELAY p <= d
  /\ d <= d'
  /\ d' <= DELAY_CAP p
  /\ (d = DELAY_CAP p -> d' = DELAY_CAP p)
  /\ (d' = d \/ d' = next_delay p d)
  /\ next_delay p d = Z.min (d + DELAY_INCREMENT p) (DELAY_CAP p).
Proof.
  intros Hc d d'.
  destruct (delay_on_sequence p status exhausted n Hc) as [j Hj].
  fold d in Hj.
  pose proof (capped_delay_bounds p Hc j) as Hb.
  pose proof (capped_delay_bounds p Hc (S j)) as Hb'.
  pose proof (capped_delay_step p Hc j) as [Hs1 Hs2].
  pose proof (next_delay_capped p Hc j) as [Hn1 Hn2].
  assert (Hd' : d' = d \/ d' = next_delay p d).
  { subst d d'. unfold after. rewrite Nat.iter_succ. apply pass_delay. }
  rewrite Hj in *.
  repeat split; try lia; try assumption.
Qed.

Lemma retry_delay_monotone_capped_witness :
  RETRY_DELAY (after script_params Scenario.always_fails [] 4)
    <= RETRY_DELAY (after script_params Scenario.always_fails [] 5)
  /\ RETRY_DELAY (after script_params Scenario.always_fails [] 5) <= 30
  /\ RETRY_DELAY (after script_params Scenario.always_fails [] 5) = 30
  /\ RETRY_DELAY (after script_params Scenario.always_fails [] 6) = 30.
Proof.
  assert (Hc : contract script_params).
  { constructor; simpl; try lia. exists 4. reflexivity. }
  pose proof (retry_delay_monotone_capped script_params
                Scenario.always_fails [] 4 Hc) as (_ & Hle & Hcap & _).
  pose proof (retry_delay_monotone_capped script_params
                Scenario.always_fails [] 5 Hc) as (_ & _ & _ & Hstay & _).
  split; [exact Hle|]. split; [exact Hcap|].
  split; [reflexivity | apply Hstay; reflexivity].
Defined.

(** C6. Within the contract, when the operation fails exactly [k] times
    and then succeeds, with [k] below the maximum, the loop ends by
    [break] after [k + 1] attempts; the trace ends with the successful
    attempt and its success line, so nothing is slept after it; and the
    delays slept are the first [k] terms of the increment-then-cap
    sequence, so the time slept is their sum. *)
Theorem retry_succeeds_after_k_failures (p : retry_params)
    (status : nat -> Z) (exhausted : list event) (k : nat) :
  contract p ->
  Z.of_nat k < MAX_RETRIES p ->
  (forall i, (i < k)%nat -> status i <> 0) ->
  status k = 0 ->
  exists s pre,
    retry_loop p status exhausted = Some s
    /\ broke s = true
    /\ calls s = S k
    /\ attempts (out s) = S k
    /\ out s = (pre ++ [az_keyvault_secret_set;
                        print_success "Sample secret created successfully!"])%list
    /\ sleeps pre = sleeps (out s)
    /\ sleeps (out s) = map (capped_delay p) (seq 0 k)
    /\ total (sleeps (out s)) = total (map (capped_delay p) (seq 0 k)).
Proof.
  intros Hc Hk Hfail Hok.
  pose proof (max_positive p Hc) as Hpos.
  pose proof (max_in_range p Hc) as Hmax.
  assert (Hrun : forall m, (m < S k)%nat ->
            running p (Nat.iter m (iteration p status exhausted) (initial p))
            = true).
  { intros m Hm.
    destruct (after_failures p status exhausted m Hpos Hmax)
      as (Hcount & _ & _ & Hbroke & _);
      [lia | intros i Hi; apply Hfail; lia |].
    unfold after in *. unfold running. rewrite Hbroke, Hcount.
    apply Z.ltb_lt. lia. }
  destruct (after_failures p status exhausted k Hpos Hmax)
    as (Hcount & Hdelay & Hcalls & Hbroke & pre & Hout & Hsl & Hat);
    [lia | exact Hfail |].
  replace (Z.of_nat k =? MAX_RETRIES p) with false in Hout
    by (symmetry; apply Z.eqb_neq; lia).
  rewrite app_nil_r in Hout.
  destruct (wait_at_head p k (after p status exhausted k))
    as (Wc & Wd & Wk & Wb & Ws & Wa);
    try assumption; try (rewrite Hout; assumption).
  exists (after p status exhausted (S k)).
  exists (out (wait p (after p status exhausted k))).
  unfold retry_loop.
  rewrite (while_loop_passes p status exhausted (S k)); [|lia|exact Hrun].
  fold (after p status exhausted (S k)).
  assert (Hs : after p status exhausted (S k)
               = attempt p status exhausted (wait p (after p status exhausted k))).
  { unfold after. rewrite Nat.iter_succ. reflexivity. }
  assert (Ha : attempt p status exhausted (wait p (after p status exhausted k))
               = {| RETRY_COUNT := RETRY_COUNT (wait p (after p status exhausted k));
                    RETRY_DELAY := RETRY_DELAY (wait p (after p status exhausted k));
                    calls := S k;
                    out := out (wait p (after p status exhausted k))
                           ++ [az_keyvault_secret_set;
                               print_success "Sample secret created successfully!"];
                    broke := true |}).
  { unfold attempt. rewrite Wk, Hok. reflexivity. }
  rewrite Hs, Ha. cbn [RETRY_COUNT RETRY_DELAY calls out broke].
  split; [apply while_loop_stopped; reflexivity|].
  split; [reflexivity|]. split; [reflexivity|].
  split; [rewrite attempts_app, Wa; cbn; lia|].
  split; [reflexivity|].
  assert (Hsleeps : sleeps (out (wait p (after p status exhausted k))
                            ++ [az_keyvault_secret_set;
                                print_success "Sample secret created successfully!"])
                    = map (capped_delay p) (seq 0 k)).
  { rewrite sleeps_app, Ws. simpl. rewrite app_nil_r.
    apply map_ext. intros i. apply (delay_seq_capped p Hc). }
  split; [rewrite Hsleeps, Ws; apply map_ext; intros i;
          apply (delay_seq_capped p Hc)|].
  split; [exact Hsleeps | rewrite Hsleeps; reflexivity].
Qed.

Lemma retry_succeeds_after_k_failures_witness :
  exists s,
    retry_loop script_params (Scenario.fails_then_succeeds 3) [] = Some s
    /\ broke s = true
    /\ attempts (out s) = 4%nat
    /\ sleeps (out s) = [10; 15; 20]
    /\ total (sleeps (out s)) = 45.
Proof.
  assert (Hc : contract script_params).
  { constructor; simpl; try lia. exists 4. reflexivity. }
  assert (Hk : Z.of_nat 3 < MAX_RETRIES script_params) by (simpl; lia).
  assert (Hfail : forall i, (i < 3)%nat -> Scenario.fails_then_succeeds 3 i <> 0).
  { intros i Hi. unfold Scenario.fails_then_succeeds.
    replace (i <? 3)%nat with true by (symmetry; apply Nat.ltb_lt; exact Hi).
    discriminate. }
  destruct (retry_succeeds_after_k_failures script_params
              (Scenario.fails_then_succeeds 3) [] 3 Hc Hk Hfail eq_refl)
    as (s & pre & Hs & Hb & _ & Ha & _ & _ & Hsl & Ht).
  exists s. split; [exact Hs|]. split; [exact Hb|]. split; [exact Ha|].
  split; [rewrite Hsl; reflexivity | rewrite Ht; reflexivity].
Defined.

End RetryRunner.

Section LoopTrace.
Import Setup.
Variable p : retry_params.
Variable status : nat -> Z.
Variable exhausted : list event.

Lemma expected_passes_S (n : nat) :
  expected_passes p (S n) = (expected_passes p n ++ expected_pass p n)%list.
Proof.
  unfold expected_passes. rewrite seq_S, flat_map_app. cbn [flat_map].
  rewrite app_nil_r. reflexivity.
Qed.

(** The trace after [n] failed attempts, event by event. *)
Lemma after_failures_trace (n : nat) :
  1 <= MAX_RETRIES p -> MAX_RETRIES p < 2 ^ 63 ->
  Z.of_nat n <= MAX_RETRIES p ->
  (forall i, (i < n)%nat -> status i <> 0) ->
  out (after p status exhausted n)
  = (expected_passes p n
       ++ if Z.of_nat n =? MAX_RETRIES p then exhausted else [])%list.
Proof.
  intros Hpos Hmax. induction n as [|n IH]; intros Hn Hfail.
  - cbn [Z.of_nat].
    replace (0 =? MAX_RETRIES p) with false by (symmetry; apply Z.eqb_neq; lia).
    reflexivity.
  - assert (IH' := IH ltac:(lia) ltac:(intros i Hi; apply Hfail; lia)).
    clear IH.
    replace (Z.of_nat n =? MAX_RETRIES p) with false in IH'
      by (symmetry; apply Z.eqb_neq; lia).
    rewrite app_nil_r in IH'.
    destruct (after_failures p status exhausted n Hpos Hmax)
      as (Hcount & Hdelay & Hcalls & Hbroke & _);
      [lia | intros i Hi; apply Hfail; lia |].
    assert (Hw : out (wait p (after p status exhausted n))
                 = (expected_passes p n
                      ++ if (n =? 0)%nat then []
                         else [print_status
                                 ("Attempt " ++ decimal (Z.of_nat n + 1) ++ "/"
                                  ++ decimal (MAX_RETRIES p) ++ " - Waiting "
                                  ++ decimal (delay_seq p (n - 1))
                                  ++ " seconds for RBAC propagation...");
                               sleep (delay_seq p (n - 1))])%list
                 /\ calls (wait p (after p status exhausted n)) = n
                 /\ RETRY_COUNT (wait p (after p status exhausted n))
                    = Z.of_nat n).
    { unfold wait. rewrite Hcount. destruct n as [|n].
      - cbn [Z.of_nat Z.ltb Z.compare Nat.eqb]. rewrite app_nil_r.
        repeat split; assumption.
      - replace (0 <? Z.of_nat (S n)) with true
          by (symmetry; apply Z.ltb_lt; lia).
        cbn [out calls RETRY_COUNT Nat.eqb]. rewrite IH'.
        unfold attempt_line. rewrite Hcount, Hdelay, wrap64_small by lia.
        replace (Nat.pred (S n)) with (S n - 1)%nat by lia.
        repeat split; assumption. }
    destruct Hw as (Hw & Hwc & Hwn).
    unfold after in *. rewrite Nat.iter_succ.
    unfold iteration at 1, attempt.
    rewrite Hwc.
    replace (status n =? 0) with false
      by (symmetry; apply Z.eqb_neq, Hfail; lia).
    cbn [out]. rewrite Hw, Hwn, wrap64_small by lia.
    replace (Z.of_nat n + 1 =? MAX_RETRIES p)
      with (Z.of_nat (S n) =? MAX_RETRIES p) by (f_equal; lia).
    rewrite expected_passes_S. unfold expected_pass.
    rewrite <- !app_assoc. reflexivity.
Qed.

(** The whole trace of the run in which every attempt allowed fails. *)
Lemma retry_loop_all_fail_trace :
  1 <= MAX_RETRIES p -> MAX_RETRIES p < 2 ^ 63 ->
  (forall i, (i < Z.to_nat (MAX_RETRIES p))%nat -> status i <> 0) ->
  exists s,
    retry_loop p status exhausted = Some s
    /\ broke s = false
    /\ calls s = Z.to_nat (MAX_RETRIES p)
    /\ out s = (expected_passes p (Z.to_nat (MAX_RETRIES p)) ++ exhausted)%list.
Proof.
  intros Hpos Hmax Hfail.
  set (N := Z.to_nat (MAX_RETRIES p)) in *.
  assert (HN : Z.of_nat N = MAX_RETRIES p) by (subst N; lia).
  assert (Hrun : forall m, (m < N)%nat ->
            running p (Nat.iter m (iteration p status exhausted) (initial p))
            = true).
  { intros m Hm.
    destruct (after_failures p status exhausted m Hpos Hmax)
      as (Hcount & _ & _ & Hbroke & _);
      [lia | intros i Hi; apply Hfail; lia |].
    unfold after in *. unfold running. rewrite Hbroke, Hcount.
    apply Z.ltb_lt. lia. }
  destruct (after_failures p status exhausted N Hpos Hmax)
    as (Hcount & _ & Hcalls & Hbroke & _); [lia | exact Hfail |].
  pose proof (after_failures_trace N Hpos Hmax ltac:(lia) Hfail) as Hout.
  rewrite HN, Z.eqb_refl in Hout.
  exists (after p status exhausted N).
  unfold retry_loop. fold N.
  rewrite (while_loop_passes p status exhausted N); [|lia|exact Hrun].
  fold (after p status exhausted N). rewrite Nat.sub_diag.
  split.
  { apply while_loop_stopped. unfold running. rewrite Hcount, HN, Z.ltb_irrefl.
    apply andb_false_r. }
  repeat split; assumption.
Qed.

(** The whole trace of the run that ends by [break] on attempt [k + 1]. *)
Lemma retry_loop_success_trace (k : nat) :
  1 <= MAX_RETRIES p -> MAX_RETRIES p < 2 ^ 63 ->
  Z.of_nat k < MAX_RETRIES p ->
  (forall i, (i < k)%nat -> status i <> 0) ->
  status k = 0 ->
  exists s,
    retry_loop p status exhausted = Some s
    /\ broke s = true
    /\ calls s = S k
    /\ out s = (expected_passes p (S k)
                  ++ [print_success "Sample secret created successfully!"])%list.
Proof.
  intros Hpos Hmax Hk Hfail Hok.
  assert (Hrun : forall m, (m < S k)%nat ->
            running p (Nat.iter m (iteration p status exhausted) (initial p))
            = true).
  { intros m Hm.
    destruct (after_failures p status exhausted m Hpos Hmax)
      as (Hcount & _ & _ & Hbroke & _);
      [lia | intros i Hi; apply Hfail; lia |].
    unfold after in *. unfold running. rewrite Hbroke, Hcount.
    apply Z.ltb_lt. lia. }
  destruct (after_failures p status exhausted k Hpos Hmax)
    as (Hcount & Hdelay & Hcalls & Hbroke & _); [lia | exact Hfail |].
  pose proof (after_failures_trace k Hpos Hmax ltac:(lia) Hfail) as Hout.
  replace (Z.of_nat k =? MAX_RETRIES p) with false in Hout
    by (symmetry; apply Z.eqb_neq; lia).
  rewrite app_nil_r in Hout.
  exists (after p status exhausted (S k)).
  unfold retry_loop.
  rewrite (while_loop_passes p status exhausted (S k)); [|lia|exact Hrun].
  fold (after p status exhausted (S k)).
  assert (Hs : after p status exhausted (S k)
               = {| RETRY_COUNT := RETRY_COUNT (wait p (after p status exhausted k));
                    RETRY_DELAY := RETRY_DELAY (wait p (after p status exhausted k));
                    calls := S k;
                    out := expected_passes p (S k)
                           ++ [print_success "Sample secret created successfully!"];
                    broke := true |}).
  { unfold after. rewrite Nat.iter_succ. unfold iteration at 1, attempt.
    fold (after p status exhausted k).
    assert (Hw : calls (wait p (after p status exhausted k)) = k
                 /\ out (wait p (after p status exhausted k))
                    = (expected_passes p k
                         ++ if (k =? 0)%nat then []
                            else [print_status
                                    ("Attempt " ++ decimal (Z.of_nat k + 1) ++ "/"
                                     ++ decimal (MAX_RETRIES p) ++ " - Waiting "
                                     ++ decimal (delay_seq p (k - 1))
                                     ++ " seconds for RBAC propagation...");
                                  sleep (delay_seq p (k - 1))])%list).
    { unfold wait. rewrite Hcount. destruct k as [|k'].
      - cbn [Z.of_nat Z.ltb Z.compare Nat.eqb]. rewrite app_nil_r.
        split; assumption.
      - replace (0 <? Z.of_nat (S k')) with true
          by (symmetry; apply Z.ltb_lt; lia).
        cbn [out calls Nat.eqb]. rewrite Hout.
        unfold attempt_line. rewrite Hcount, Hdelay, wrap64_small by lia.
        replace (Nat.pred (S k')) with (S k' - 1)%nat by lia.
        split; [assumption | reflexivity]. }
    destruct Hw as [Hwc Hwo]. rewrite Hwc, Hok. cbn [Z.eqb].
    f_equal. rewrite Hwo, expected_passes_S. unfold expected_pass.
    rewrite <- !app_assoc. reflexivity. }
  rewrite Hs. cbn [calls out broke].
  split; [apply while_loop_stopped; reflexivity|].
  repeat split.
Qed.

Lemma attempts_expected_passes (n : nat) : attempts (expected_passes p n) = n.
Proof.
  induction n as [|n IH]; [reflexivity|].
  rewrite expected_passes_S, attempts_app, IH. unfold expected_pass.
  destruct (n =? 0)%nat; cbn; lia.
Qed.

Lemma sleeps_expected_passes (n : nat) :
  sleeps (expected_passes p n) = map (delay_seq p) (seq 0 (n - 1)).
Proof.
  induction n as [|n IH]; [reflexivity|].
  rewrite expected_passes_S, sleeps_app, IH. unfold expected_pass.
  destruct n as [|n]; [reflexivity|].
  cbn [Nat.eqb app sleeps].
  replace (S (S n) - 1)%nat with (S n) by lia.
  replace (S n - 1)%nat with n by lia.
  rewrite seq_S, map_app. reflexivity.
Qed.

(** Between the first attempt and the last the loop prints nothing but
    the announcements of the attempts. *)
Lemma expected_passes_events (n : nat) (ev : event) :
  In ev (expected_passes p n) ->
  (exists m, ev = print_status m) \/ (exists d, ev = sleep d)
  \/ ev = az_keyvault_secret_set.
Proof.
  unfold expected_passes. rewrite in_flat_map. intros (i & _ & Hi).
  unfold expected_pass in Hi. destruct (i =? 0)%nat; cbn in Hi.
  - destruct Hi as [<-|[]]. right; right; reflexivity.
  - destruct Hi as [<-|[<-|[<-|[]]]].
    + left. eexists. reflexivity.
    + right; left. eexists. reflexivity.
    + right; right. reflexivity.
Qed.

Lemma timeline_app (a b : list event) :
  timeline (a ++ b) = (timeline a ++ timeline b)%list.
Proof. apply filter_app. Qed.

Lemma timeline_expected_passes (n : nat) :
  timeline (expected_passes p n)
  = flat_map (fun i => (if (i =? 0)%nat then []
                        else [sleep (delay_seq p (i - 1))])
                       ++ [az_keyvault_secret_set])%list
      (seq 0 n).
Proof.
  induction n as [|n IH]; [reflexivity|].
  rewrite expected_passes_S, timeline_app, IH, seq_S, flat_map_app.
  cbn [flat_map Nat.add]. rewrite app_nil_r. f_equal.
  unfold expected_pass. destruct (n =? 0)%nat; reflexivity.
Qed.

Lemma timeline_quiet (evs : list event) :
  sleeps evs = [] -> attempts evs = 0%nat -> timeline evs = [].
Proof.
  induction evs as [|ev evs IH]; [reflexivity|].
  destruct ev; cbn; intros Hs Ha; try discriminate;
    try (apply IH; assumption).
Qed.

End LoopTrace.

Section Provisioning.
Import Setup.

(** From the summary on: the summary is printed, the configuration file is
    written, and only a failure of that write ends the script early. *)
Lemma finish_run (w : world) :
  finish w
  = ((summary w
       ++ cat_CONFIG_FILE (config_lines w)
          :: (if cat_status w =? 0
              then [print_success ("Configuration saved to: " ++ CONFIG_FILE);
                    print_status "You can now test the brokered authentication sample!"]
              else []))%list,
     if cat_status w =? 0 then ok tt else exit (cat_status w)).
Proof.
  unfold finish, emit_all, command, emit, bind.
  destruct (cat_status w =? 0); reflexivity.
Qed.

Lemma attempts_finish (w : world) : attempts (fst (finish w)) = 0%nat.
Proof.
  rewrite finish_run. cbn [fst]. rewrite attempts_app.
  destruct (cat_status w =? 0); reflexivity.
Qed.

Lemma sleeps_finish (w : world) : sleeps (fst (finish w)) = [].
Proof.
  rewrite finish_run. cbn [fst]. rewrite sleeps_app.
  destruct (cat_status w =? 0); reflexivity.
Qed.

(** The loop when every attempt fails: it stops at the maximum, without
    [break], the warnings last. *)
Lemma retry_loop_exhausted (p : retry_params) (status : nat -> Z)
    (exhausted : list event) :
  1 <= MAX_RETRIES p -> MAX_RETRIES p < 2 ^ 63 ->
  (forall i, status i <> 0) ->
  exists s pre,
    retry_loop p status exhausted = Some s
    /\ broke s = false
    /\ RETRY_COUNT s = MAX_RETRIES p
    /\ calls s = Z.to_nat (MAX_RETRIES p)
    /\ out s = (pre ++ exhausted)%list
    /\ attempts pre = Z.to_nat (MAX_RETRIES p).
Proof.
  intros Hpos Hmax Hfail.
  set (N := Z.to_nat (MAX_RETRIES p)).
  assert (HN : Z.of_nat N = MAX_RETRIES p) by (subst N; lia).
  assert (Hrun : forall m, (m < N)%nat ->
            running p (Nat.iter m (iteration p status exhausted) (initial p))
            = true).
  { intros m Hm.
    destruct (after_failures p status exhausted m Hpos Hmax)
      as (Hcount & _ & _ & Hbroke & _); [lia | intros; apply Hfail |].
    unfold after in *. unfold running. rewrite Hbroke, Hcount.
    apply Z.ltb_lt. lia. }
  destruct (after_failures p status exhausted N Hpos Hmax)
    as (Hcount & _ & Hcalls & Hbroke & pre & Hout & _ & Hat);
    [lia | intros; apply Hfail |].
  rewrite HN, Z.eqb_refl in Hout.
  exists (after p status exhausted N), pre.
  unfold retry_loop. fold N.
  rewrite (while_loop_passes p status exhausted N); [|lia|exact Hrun].
  fold (after p status exhausted N). rewrite Nat.sub_diag.
  split.
  { apply while_loop_stopped. unfold running. rewrite Hcount, HN, Z.ltb_irrefl.
    apply andb_false_r. }
  rewrite Hcount, HN. repeat split; assumption.
Qed.

(** C7. When every secret write fails and the maximum is [N], the first
    provisioning script attempts the write exactly [N] times; between the
    first attempt and the last it prints nothing but the announcements of
    the attempts, so no warning comes before the last attempt; right
    after the last attempt it prints the five exhaustion warnings, and it
    goes on: the summary and the configuration file, both written out
    here line by line, follow the warnings, and the script ends with
    status 0 unless writing that file fails. *)
Theorem exhaustion_is_a_warning (p : retry_params) (w : world) :
  1 <= MAX_RETRIES p -> MAX_RETRIES p < 2 ^ 63 ->
  role_assignment_status w = 0 ->
  (forall i, secret_set_status w i <> 0) ->
  let q := String (ascii_of_nat 34) EmptyString in
  let rg := "kvbrokerrg" ++ RANDOM_SUFFIX w in
  let kv := "kvbrokerkv" ++ RANDOM_SUFFIX w in
  let url := "https://" ++ kv ++ ".vault.azure.net/" in
  let config :=
    ["# Azure Key Vault Configuration";
     "# Generated on: " ++ date w;
     EmptyString;
     "RESOURCE_GROUP_NAME=" ++ q ++ rg ++ q;
     "KEY_VAULT_NAME=" ++ q ++ kv ++ q;
     "KEY_VAULT_URL=" ++ q ++ url ++ q;
     "LOCATION=" ++ q ++ "eastus" ++ q;
     "SUBSCRIPTION_ID=" ++ q ++ SUBSCRIPTION_ID w ++ q;
     "USER_UPN=" ++ q ++ CURRENT_USER_UPN w ++ q;
     EmptyString;
     "# Environment variable to set:";
     "export AZURE_KEY_VAULT_URL=" ++ q ++ url ++ q;
     EmptyString;
     "# To clean up these resources:";
     "# az group delete --name " ++ rg ++ " --yes --no-wait"] in
  exists s pre post,
    retry_loop p (secret_set_status w) (First.exhausted p w) = Some s
    /\ broke s = false
    /\ calls s = Z.to_nat (MAX_RETRIES p)
    /\ out s
       = (pre
            ++ [print_warning ("Failed to create sample secret after "
                               ++ decimal (MAX_RETRIES p) ++ " attempts.");
                print_warning "RBAC permissions may still be propagating. You can:";
                print_warning "  1. Wait a few more minutes and try manually:";
                print_warning ("     az keyvault secret set --vault-name " ++ kv
                               ++ " --name MySecret --value 'test'");
                print_warning "  2. Or proceed - the Key Vault is ready, just permissions need time."])%list
    /\ attempts pre = Z.to_nat (MAX_RETRIES p)
    /\ (forall ev, In ev pre ->
          (exists m, ev = print_status m) \/ (exists d, ev = sleep d)
          \/ ev = az_keyvault_secret_set)
    /\ last pre (echo EmptyString) = az_keyvault_secret_set
    /\ fst (First.tail p w)
       = ([print_status "Assigning 'Key Vault Secrets Officer' role to current user...";
           az_role_assignment_create;
           print_success "Role assignment completed successfully.";
           print_status "Creating sample secret 'MySecret' for testing...";
           print_warning "Note: RBAC permissions may take up to 5 minutes to propagate. Retrying if needed..."]
            ++ out s
            ++ [echo EmptyString;
                print_success "Setup completed successfully!";
                echo EmptyString;
                echo "=== RESOURCE SUMMARY ===";
                echo ("Resource Group: " ++ rg);
                echo ("Key Vault Name: " ++ kv);
                echo ("Key Vault URL: " ++ url);
                echo "Location: eastus";
                echo ("User: " ++ CURRENT_USER_UPN w);
                echo "Role: Key Vault Secrets Officer";
                echo EmptyString;
                echo "=== NEXT STEPS ===";
                echo "1. Set the Key Vault URL as an environment variable:";
                echo ("   export AZURE_KEY_VAULT_URL=" ++ q ++ url ++ q);
                echo EmptyString;
                echo "   Or add it to your .env file:";
                echo ("   echo " ++ q ++ "AZURE_KEY_VAULT_URL=" ++ url ++ q
                      ++ " >> sample.env");
                echo EmptyString;
                echo "2. Run the brokered authentication sample:";
                echo "   npm run build";
                echo "   npm run start:broker";
                echo EmptyString;
                echo "3. Clean up resources when done:";
                echo ("   az group delete --name " ++ rg ++ " --yes --no-wait");
                echo EmptyString]
            ++ cat_CONFIG_FILE config
               :: post)%list
    /\ post = (if cat_status w =? 0
                then [print_success "Configuration saved to: ./keyvault-config.txt";
                      print_status "You can now test the brokered authentication sample!"]
                else [])
    /\ attempts (fst (First.tail p w)) = Z.to_nat (MAX_RETRIES p)
    /\ snd (First.tail p w)
       = (if cat_status w =? 0 then ok tt else exit (cat_status w)).
Proof.
  intros Hpos Hmax Hrole Hfail q rg kv url config.
  destruct (retry_loop_all_fail_trace p (secret_set_status w)
              (First.exhausted p w) Hpos Hmax (fun i _ => Hfail i))
    as (s & Hloop & Hbroke & Hcalls & Hout).
  exists s, (expected_passes p (Z.to_nat (MAX_RETRIES p))).
  exists (if cat_status w =? 0
          then [print_success "Configuration saved to: ./keyvault-config.txt";
                print_status "You can now test the brokered authentication sample!"]
          else []).
  assert (Htail : First.tail p w
            = (([print_status "Assigning 'Key Vault Secrets Officer' role to current user...";
                 az_role_assignment_create;
                 print_success "Role assignment completed successfully.";
                 print_status "Creating sample secret 'MySecret' for testing...";
                 print_warning propagation_note]
                  ++ out s ++ fst (finish w))%list,
               snd (finish w))).
  { unfold First.tail, run_retry_loop, command. rewrite Hloop, Hrole.
    unfold bind, emit. cbn [Z.eqb].
    destruct (finish w) as [evs r]. cbn [fst snd app]. reflexivity. }
  rewrite Htail. cbn [fst snd].
  split; [exact Hloop|]. split; [exact Hbroke|]. split; [exact Hcalls|].
  split; [exact Hout|].
  split; [apply attempts_expected_passes|].
  split; [intros ev; apply expected_passes_events|].
  split.
  { destruct (Z.to_nat (MAX_RETRIES p)) as [|n] eqn:HN; [lia|].
    rewrite expected_passes_S. unfold expected_pass.
    rewrite app_assoc. apply last_last. }
  split; [rewrite finish_run; reflexivity|].
  split; [reflexivity|].
  split; [|rewrite finish_run; reflexivity].
  rewrite !attempts_app, attempts_finish, Hout, attempts_app,
    attempts_expected_passes.
  cbn. lia.
Qed.

Lemma exhaustion_is_a_warning_witness :
  attempts (fst (First.script (Scenario.provisioning 0 Scenario.always_fails)))
    = 12%nat
  /\ snd (First.script (Scenario.provisioning 0 Scenario.always_fails)) = ok tt.
Proof.
  assert (H1 : 1 <= MAX_RETRIES script_params) by (simpl; lia).
  assert (H2 : MAX_RETRIES script_params < 2 ^ 63) by (simpl; lia).
  assert (Hf : forall i,
            secret_set_status (Scenario.provisioning 0 Scenario.always_fails) i
            <> 0) by (intros i; discriminate).
  pose proof (exhaustion_is_a_warning script_params
                (Scenario.provisioning 0 Scenario.always_fails)
                H1 H2 eq_refl Hf) as H.
  cbv zeta in H.
  destruct H as (s & pre & post & _ & _ & _ & _ & _ & _ & _ & _ & _ & Ha & Hr).
  split; [exact Ha | exact Hr].
Defined.

(** C10. In the second provisioning script, when the role assignment
    fails, no secret write is attempted and nothing is slept: after the
    two error lines and the warning of the failed assignment come the
    four warnings that tell how to do both steps by hand, then the
    summary and the configuration file, all written out here line by
    line, and the script ends with status 0 unless writing that file
    fails. *)
Theorem role_assignment_failure_skips_secret (p : retry_params) (w : world) :
  role_assignment_status w <> 0 ->
  let q := String (ascii_of_nat 34) EmptyString in
  let rg := "kvbrokerrg" ++ RANDOM_SUFFIX w in
  let kv := "kvbrokerkv" ++ RANDOM_SUFFIX w in
  let url := "https://" ++ kv ++ ".vault.azure.net/" in
  let config :=
    ["# Azure Key Vault Configuration";
     "# Generated on: " ++ date w;
     EmptyString;
     "RESOURCE_GROUP_NAME=" ++ q ++ rg ++ q;
     "KEY_VAULT_NAME=" ++ q ++ kv ++ q;
     "KEY_VAULT_URL=" ++ q ++ url ++ q;
     "LOCATION=" ++ q ++ "eastus" ++ q;
     "SUBSCRIPTION_ID=" ++ q ++ SUBSCRIPTION_ID w ++ q;
     "USER_UPN=" ++ q ++ CURRENT_USER_UPN w ++ q;
     EmptyString;
     "# Environment variable to set:";
     "export AZURE_KEY_VAULT_URL=" ++ q ++ url ++ q;
     EmptyString;
     "# To clean up these resources:";
     "# az group delete --name " ++ rg ++ " --yes --no-wait"] in
  let by_hand :=
    "az role assignment create --assignee '" ++ CURRENT_USER_OBJECT_ID w
    ++ "' --role 'Key Vault Secrets Officer' --scope '" ++ KEY_VAULT_ID w
    ++ "'" in
  fst (Second.tail p w)
  = ([az_role_assignment_create;
      print_error "RBAC role assignment failed. You may need to assign the role manually:";
      print_error ("  " ++ by_hand);
      print_warning "This could be due to insufficient permissions or subscription limitations.";
      print_warning "Skipping secret creation due to RBAC assignment failure.";
      print_warning "You can create the secret manually after setting up RBAC permissions:";
      print_warning ("  1. First assign the role: " ++ by_hand);
      print_warning ("  2. Then create secret: az keyvault secret set --vault-name "
                     ++ kv ++ " --name MySecret --value 'test'")]
       ++ [echo EmptyString;
           print_success "Setup completed successfully!";
           echo EmptyString;
           echo "=== RESOURCE SUMMARY ===";
           echo ("Resource Group: " ++ rg);
           echo ("Key Vault Name: " ++ kv);
           echo ("Key Vault URL: " ++ url);
           echo "Location: eastus";
           echo ("User: " ++ CURRENT_USER_UPN w);
           echo "Role: Key Vault Secrets Officer";
           echo EmptyString;
           echo "=== NEXT STEPS ===";
           echo "1. Set the Key Vault URL as an environment variable:";
           echo ("   export AZURE_KEY_VAULT_URL=" ++ q ++ url ++ q);
           echo EmptyString;
           echo "   Or add it to your .env file:";
           echo ("   echo " ++ q ++ "AZURE_KEY_VAULT_URL=" ++ url ++ q
                 ++ " >> sample.env");
           echo EmptyString;
           echo "2. Run the brokered authentication sample:";
           echo "   npm run build";
           echo "   npm run start:broker";
           echo EmptyString;
           echo "3. Clean up resources when done:";
           echo ("   az group delete --name " ++ rg ++ " --yes --no-wait");
           echo EmptyString]
       ++ cat_CONFIG_FILE config
          :: (if cat_status w =? 0
              then [print_success "Configuration saved to: ./keyvault-config.txt";
                    print_status "You can now test the brokered authentication sample!"]
              else []))%list
  /\ attempts (fst (Second.tail p w)) = 0%nat
  /\ sleeps (fst (Second.tail p w)) = []
  /\ snd (Second.tail p w)
     = (if cat_status w =? 0 then ok tt else exit (cat_status w)).
Proof.
  intros Hrole q rg kv url config by_hand. apply Z.eqb_neq in Hrole.
  assert (Htail : Second.tail p w
            = (([az_role_assignment_create;
                 print_error "RBAC role assignment failed. You may need to assign the role manually:";
                 print_error ("  " ++ manual_role_assignment w);
                 print_warning "This could be due to insufficient permissions or subscription limitations."]
                  ++ Second.skipped w ++ fst (finish w))%list,
               snd (finish w))).
  { unfold Second.tail, Second.assign_role, condition, emit_all.
    unfold bind at 2. rewrite Hrole.
    unfold bind, emit, ret.
    destruct (finish w) as [evs r]. reflexivity. }
  rewrite Htail. cbn [fst snd].
  split; [rewrite finish_run; reflexivity|].
  split; [|split; [|rewrite finish_run; reflexivity]].
  - rewrite !attempts_app, attempts_finish. reflexivity.
  - rewrite !sleeps_app, sleeps_finish. reflexivity.
Qed.

Lemma role_assignment_failure_skips_secret_witness :
  attempts (fst (Second.script (Scenario.provisioning 1 Scenario.always_fails)))
    = 0%nat
  /\ snd (Second.script (Scenario.provisioning 1 Scenario.always_fails)) = ok tt.
Proof.
  assert (Hr : role_assignment_status
                 (Scenario.provisioning 1 Scenario.always_fails) <> 0)
    by discriminate.
  pose proof (role_assignment_failure_skips_secret script_params
                (Scenario.provisioning 1 Scenario.always_fails) Hr) as H.
  cbv zeta in H.
  destruct H as (_ & Ha & _ & Ho).
  split; [exact Ha | exact Ho].
Defined.

End Provisioning.

(* ================================================================== *)
(** ** More on the classifier and the credential scripts *)
(* ================================================================== *)

Section ClassifierLadder.
Import JS Broker.

(** X1. The code of the [catch] block tells the rule that fired: 2 exactly
    for an [AuthenticationError]; 3 exactly for another [Error] named
    RestError with a truthy status code; 4 exactly for another [Error] not
    named RestError whose message contains "Invalid URL"; 1 otherwise.
    The code is never 0. *)
Theorem catch_block_code_tells_rule (error : thrown) :
  (snd (catch_block error) = 2
   <-> instanceof_AuthenticationError error = true)
  /\ (snd (catch_block error) = 3
      <-> instanceof_AuthenticationError error = false
          /\ instanceof_Error error = true
          /\ name error = "RestError"
          /\ truthy (statusCode error) = true)
  /\ (snd (catch_block error) = 4
      <-> instanceof_AuthenticationError error = false
          /\ instanceof_Error error = true
          /\ name error <> "RestError"
          /\ includes (message error) "Invalid URL" = true)
  /\ (snd (catch_block error) = 1 \/ snd (catch_block error) = 2
      \/ snd (catch_block error) = 3 \/ snd (catch_block error) = 4).
Proof.
  unfold catch_block, unexpected.
  destruct (instanceof_AuthenticationError error);
    destruct (instanceof_Error error);
    destruct (String.eqb_spec (name error) "RestError") as [Hn|Hn];
    destruct (truthy (statusCode error));
    destruct (includes (message error) "Invalid URL");
    cbn [andb fst snd];
    repeat split; intros; try discriminate; try tauto;
    repeat match goal with
           | H : _ /\ _ |- _ => destruct H
           end;
    try discriminate; try contradiction; auto.
Qed.

(** X2. Whenever the outcome is UnexpectedError the line printed is the
    fixed prefix followed by the failure's own message when it is an
    [Error], and by its string form when it is not. *)
Theorem unexpected_line (error : thrown) :
  snd (catch_block error) = exit_status UnexpectedError ->
  fst (catch_block error)
  = "💥 An unexpected error occurred: "
    ++ (if instanceof_Error error then message error else String_of error).
Proof.
  unfold catch_block, unexpected.
  destruct (instanceof_AuthenticationError error); [discriminate|].
  destruct (instanceof_Error error && String.eqb (name error) "RestError").
  - destruct (truthy (statusCode error)); [discriminate | reflexivity].
  - destruct (instanceof_Error error && includes (message error) "Invalid URL");
      [discriminate | reflexivity].
Qed.

Lemma unexpected_line_witness :
  fst (catch_block Cases.rest_error_no_response)
  = "💥 An unexpected error occurred: getaddrinfo ENOTFOUND kv.vault.azure.net"
  /\ fst (catch_block Cases.thrown_text)
     = "💥 An unexpected error occurred: socket hang up".
Proof.
  split.
  - exact (unexpected_line Cases.rest_error_no_response eq_refl).
  - exact (unexpected_line Cases.thrown_text eq_refl).
Defined.

(** X3. A thrown value that is no [Error] is always UnexpectedError and is
    printed through its string form: its name, status code and message
    are not looked at, so an object that merely looks like a service error
    or like an address error is not classified as one. *)
Theorem non_error_is_unexpected (error : thrown) :
  instanceof_Error error = false ->
  catch_block error
  = ("💥 An unexpected error occurred: " ++ String_of error,
     exit_status UnexpectedError).
Proof.
  unfold catch_block, unexpected, instanceof_Error,
    instanceof_AuthenticationError.
  destruct (proto error); intros H; try discriminate. reflexivity.
Qed.

Lemma non_error_is_unexpected_witness :
  statusCode Cases.lookalike_object = number 404 eq_refl
  /\ name Cases.lookalike_object = "RestError"
  /\ includes (message Cases.lookalike_object) "Invalid URL" = true
  /\ catch_block Cases.lookalike_object
     = ("💥 An unexpected error occurred: [object Object]", 1).
Proof.
  split; [reflexivity | split; [reflexivity | split; [reflexivity|]]].
  exact (non_error_is_unexpected Cases.lookalike_object eq_refl).
Defined.

End ClassifierLadder.

Section CredentialScripts.
Import JS Broker.

Lemma catch_block_code_nonzero (error : thrown) :
  snd (catch_block error) <> 0.
Proof.
  destruct (catch_block_code error) as [c [Hc ->]].
  destruct c; try discriminate. contradiction.
Qed.

(** The three ways the [try] block can go once the address is real. *)
Lemma try_body_cases (closing : list event) (w : world) :
  includes (vaultUri w) placeholder = false ->
  let e1 := [console_log ("Using Key Vault URL: " ++ vaultUri w);
             new_SecretClient (vaultUri w)] in
  let e2 := (e1 ++ [console_log "Retrieving secret 'MySecret' from Key Vault...";
                    getSecret "MySecret"])%list in
  (exists err, client_throws w (vaultUri w) = Some err
               /\ try_body closing w = (e1, inl err))
  \/ (exists err, client_throws w (vaultUri w) = None
                  /\ getSecret_answer w (vaultUri w) = inl err
                  /\ try_body closing w = (e2, inl err))
  \/ (exists s, client_throws w (vaultUri w) = None
                /\ getSecret_answer w (vaultUri w) = inr s
                /\ try_body closing w
                   = ((e2 ++ [console_log "✅ Secret 'MySecret' retrieved successfully!";
                             console_log ("🔑 Value: " ++ template_opt (secret_value s));
                             console_log ("📅 Created: " ++ template_opt (createdOn_ISO s))]
                          ++ closing)%list,
                      inr 0)).
Proof.
  intros Hp e1 e2. unfold try_body. rewrite Hp.
  destruct (client_throws w (vaultUri w)) as [err|].
  - left. exists err. split; reflexivity.
  - destruct (getSecret_answer w (vaultUri w)) as [err|s].
    + right; left. exists err. repeat split.
    + right; right. exists s. repeat split.
Qed.

(** X4. Once the credential exists, the number that [main] of the second
    script resolves with is the status the first script exits with, and
    the first script's events are those of [main] followed, only when
    that number is 0, by its closing line. The second script as a process
    differs: it prints [main]'s events, then the closing line on every
    run, and exits with status 0 whatever the number. *)
Theorem scripts_compute_same_outcome (w : world) :
  credential_throws w = None ->
  result (TopLevel.script w) = exited (snd (Main.main w))
  /\ (events (TopLevel.script w)
      = fst (Main.main w)
        ++ if snd (Main.main w) =? 0 then [console_log "✅ Done"] else [])%list
  /\ events (Main.script w) = (fst (Main.main w) ++ [console_log "✅ Done"])%list
  /\ result (Main.script w) = exited 0.
Proof.
  intros Hc.
  assert (Hms : events (Main.script w)
                = (fst (Main.main w) ++ [console_log "✅ Done"])%list
                /\ result (Main.script w) = exited 0).
  { unfold Main.script. destruct (Main.main w). split; reflexivity. }
  cut (snd (Main.main w) = snd (TopLevel.outcome w)
       /\ (new_InteractiveBrowserCredential :: fst (TopLevel.outcome w)
           = fst (Main.main w)
             ++ if snd (Main.main w) =? 0 then [console_log "✅ Done"] else [])%list).
  { intros [H1 H2]. unfold TopLevel.script. rewrite Hc.
    destruct (TopLevel.outcome w) as [evs code]. cbn [fst snd events result] in *.
    split; [rewrite H1; reflexivity|]. split; [exact H2 | exact Hms]. }
  unfold Main.main, TopLevel.outcome. rewrite Hc.
  destruct (includes (vaultUri w) placeholder) eqn:Hp.
  - rewrite !(try_body_placeholder _ w Hp). split; reflexivity.
  - destruct (try_body_cases [] w Hp)
      as [(err & Hc0 & H0)|[(err & Hc0 & Hg0 & H0)|(s & Hc0 & Hg0 & H0)]];
      destruct (try_body_cases [console_log "✅ Done"] w Hp)
        as [(err' & Hc1 & H1)|[(err' & Hc1 & Hg1 & H1)|(s' & Hc1 & Hg1 & H1)]];
      rewrite H0, H1; try congruence.
    + assert (err' = err) by congruence. subst err'.
      unfold try_catch. pose proof (catch_block_code_nonzero err) as Hnz.
      destruct (catch_block err) as [line code]. cbn [fst snd] in *.
      apply Z.eqb_neq in Hnz. rewrite Hnz, app_nil_r. split; reflexivity.
    + assert (err' = err) by congruence. subst err'.
      unfold try_catch. pose proof (catch_block_code_nonzero err) as Hnz.
      destruct (catch_block err) as [line code]. cbn [fst snd] in *.
      apply Z.eqb_neq in Hnz. rewrite Hnz, app_nil_r. split; reflexivity.
    + assert (s' = s) by congruence. subst s'.
      cbn [try_catch fst snd Z.eqb]. split; [reflexivity|].
      rewrite !app_nil_r. reflexivity.
Qed.

Lemma scripts_compute_same_outcome_witness :
  snd (Main.main Scenario.sign_in_refused) = 2
  /\ result (TopLevel.script Scenario.sign_in_refused) = exited 2
  /\ result (Main.script Scenario.sign_in_refused) = exited 0.
Proof.
  destruct (scripts_compute_same_outcome Scenario.sign_in_refused eq_refl)
    as (H1 & _ & _ & H2).
  split; [reflexivity | split; [rewrite H1; reflexivity | exact H2]].
Defined.

(** X5. The first script exits with status 0 exactly when the secret was
    retrieved: the credential and the client were constructed, the address
    held no placeholder, and [getSecret] answered. *)
Theorem toplevel_exit_0_iff_secret_retrieved (w : world) :
  result (TopLevel.script w) = exited 0
  <-> credential_throws w = None
      /\ includes (vaultUri w) placeholder = false
      /\ client_throws w (vaultUri w) = None
      /\ exists s, getSecret_answer w (vaultUri w) = inr s.
Proof.
  unfold TopLevel.script, TopLevel.outcome.
  destruct (credential_throws w) as [cerr|].
  { split; [discriminate | intros [H _]; discriminate]. }
  destruct (includes (vaultUri w) placeholder) eqn:Hp.
  { rewrite (try_body_placeholder _ w Hp). cbn.
    split; [discriminate | intros (_ & H & _); discriminate]. }
  destruct (try_body_cases [console_log "✅ Done"] w Hp)
    as [(err & Hc1 & H1)|[(err & Hc1 & Hg1 & H1)|(s & Hc1 & Hg1 & H1)]];
    rewrite H1.
  - unfold try_catch. pose proof (catch_block_code_nonzero err) as Hnz.
    destruct (catch_block err) as [line code]. cbn [fst snd result] in *.
    split; [intros H; injection H; contradiction|].
    intros (_ & _ & H & _). congruence.
  - unfold try_catch. pose proof (catch_block_code_nonzero err) as Hnz.
    destruct (catch_block err) as [line code]. cbn [fst snd result] in *.
    split; [intros H; injection H; contradiction|].
    intros (_ & _ & _ & s & H). congruence.
  - cbn [try_catch result]. split; [|reflexivity].
    intros _. repeat split; try assumption. exists s. exact Hg1.
Qed.

(** X6. The first script always ends with one of the five documented
    statuses, also when the credential constructor throws before the
    [try] block. *)
Theorem toplevel_status_documented (w : world) :
  exists c, status_of (result (TopLevel.script w)) = exit_status c.
Proof.
  unfold TopLevel.script, TopLevel.outcome.
  destruct (credential_throws w) as [cerr|]; [exists UnexpectedError; reflexivity|].
  destruct (includes (vaultUri w) placeholder) eqn:Hp.
  { rewrite (try_body_placeholder _ w Hp). exists InvalidConfiguration. reflexivity. }
  destruct (try_body_cases [console_log "✅ Done"] w Hp)
    as [(err & _ & H1)|[(err & _ & _ & H1)|(s & _ & _ & H1)]];
    rewrite H1.
  - unfold try_catch. destruct (catch_block_code err) as [c [_ Hc]].
    destruct (catch_block err) as [line code]. exists c. exact Hc.
  - unfold try_catch. destruct (catch_block_code err) as [c [_ Hc]].
    destruct (catch_block err) as [line code]. exists c. exact Hc.
  - exists Success. reflexivity.
Qed.

Lemma remote_calls_app (a b : list event) :
  remote_calls (a ++ b) = (remote_calls a ++ remote_calls b)%list.
Proof. apply filter_app. Qed.

(** X7. The remote calls of any run of either script are, in order, at
    most one construction of the secrets client with the configured
    address and then at most one retrieval of MySecret: nothing before the
    credential exists or when the address holds the placeholder, only the
    construction when it throws, both otherwise. Nothing is retried. *)
Theorem remote_calls_of_credential_scripts (w : world) :
  let calls_of_run :=
    match credential_throws w with
    | Some _ => []
    | None =>
      if includes (vaultUri w) placeholder then []
      else match client_throws w (vaultUri w) with
           | Some _ => [new_SecretClient (vaultUri w)]
           | None => [new_SecretClient (vaultUri w); getSecret "MySecret"]
           end
    end in
  remote_calls (events (TopLevel.script w)) = calls_of_run
  /\ remote_calls (events (Main.script w)) = calls_of_run.
Proof.
  unfold TopLevel.script, TopLevel.outcome, Main.script, Main.main.
  destruct (credential_throws w) as [cerr|].
  { unfold try_catch. destruct (catch_block cerr). split; reflexivity. }
  destruct (includes (vaultUri w) placeholder) eqn:Hp.
  { rewrite !(try_body_placeholder _ w Hp). split; reflexivity. }
  destruct (try_body_cases [] w Hp)
    as [(err & Hc0 & H0)|[(err & Hc0 & Hg0 & H0)|(s & Hc0 & Hg0 & H0)]];
    destruct (try_body_cases [console_log "✅ Done"] w Hp)
      as [(err' & Hc1 & H1)|[(err' & Hc1 & Hg1 & H1)|(s' & Hc1 & Hg1 & H1)]];
    rewrite H0, H1, Hc0; try congruence;
    unfold try_catch;
    try (destruct (catch_block err) as [line code];
         destruct (catch_block err') as [line' code']);
    cbn [events]; split; reflexivity.
Qed.

(** X8. When [getSecret] fails, the first script has constructed the
    client with the configured address and asked for MySecret once; it
    prints the line the [catch] block chooses for the failure and exits
    with that block's code. For an address that is no URL, where the
    request fails with a TypeError saying Invalid URL, that is the status
    of InvalidConfiguration. *)
Theorem getSecret_failure (w : world) (err : thrown) :
  credential_throws w = None ->
  includes (vaultUri w) placeholder = false ->
  client_throws w (vaultUri w) = None ->
  getSecret_answer w (vaultUri w) = inl err ->
  TopLevel.script w
  = {| events := [new_InteractiveBrowserCredential;
                  console_log ("Using Key Vault URL: " ++ vaultUri w);
                  new_SecretClient (vaultUri w);
                  console_log "Retrieving secret 'MySecret' from Key Vault...";
                  getSecret "MySecret";
                  console_error (fst (catch_block err))];
       result := exited (snd (catch_block err)) |}.
Proof.
  intros Hc Hp He Hg. unfold TopLevel.script, TopLevel.outcome, try_body.
  rewrite Hc, Hp, He, Hg. unfold try_catch.
  destruct (catch_block err). reflexivity.
Qed.

Lemma getSecret_failure_witness :
  result (TopLevel.script Cases.address_not_a_url)
    = exited (exit_status InvalidConfiguration)
  /\ List.last (events (TopLevel.script Cases.address_not_a_url))
       (console_log EmptyString)
     = console_error msg_invalid_url.
Proof.
  rewrite (getSecret_failure Cases.address_not_a_url
             Scenario.type_error_invalid_url eq_refl eq_refl eq_refl eq_refl).
  split; reflexivity.
Defined.

End CredentialScripts.

(* ================================================================== *)
(** ** More on the listing script *)
(* ================================================================== *)

Section Listing.
Import JS ListResourceGroups.

Lemma print_items_spec (items : list (option string)) :
  forall i,
  snd (print_items i items) = i + Z.of_nat (List.length items)
  /\ List.length (fst (print_items i items)) = List.length items
  /\ forall k item,
       nth_error items k = Some item ->
       nth_error (fst (print_items i items)) k
       = Some (console_log (decimal (i + Z.of_nat k + 1) ++ ": "
                            ++ template_opt item)).
Proof.
  induction items as [|x items IH]; intros i.
  - repeat split; [simpl; lia|]. intros [|k] item H; discriminate.
  - cbn [print_items]. destruct (IH (i + 1)) as (Hn & Hl & Hk).
    destruct (print_items (i + 1) items) as [evs n]. cbn [fst snd] in *.
    repeat split.
    + rewrite Hn. cbn [List.length]. rewrite Nat2Z.inj_succ.
      generalize (Z.of_nat (List.length items)). clear. intros z. lia.
    + cbn [List.length]. rewrite Hl. reflexivity.
    + intros [|k] item H; cbn [nth_error] in *.
      * injection H as ->. rewrite Z.add_0_r. reflexivity.
      * rewrite (Hk k item H). do 4 f_equal. rewrite Nat2Z.inj_succ.
        generalize (Z.of_nat k). clear. intros z. lia.
Qed.

(** X9. With a subscription id and both constructors returning, the
    listing script prints the groups the pager yields numbered from 1 in
    the order yielded (a group without a name as undefined); then, when
    the pager completes, the number of groups, and when it fails, the
    failure in place of that number. The status is 0 either way. *)
Theorem listing_numbers_and_counts (w : world) (id : string) :
  AZURE_SUBSCRIPTION_ID w = Some id ->
  id <> EmptyString ->
  credential_throws w = None ->
  client_throws w = None ->
  exists printed,
    script w
    = {| events :=
           ([console_log ("Using Subscription ID: " ++ id);
             new_DefaultAzureCredential;
             new_ResourceManagementClient id;
             resourceGroups_list]
              ++ printed
              ++ [match list_throws w with
                  | None =>
                    console_log ("Found "
                                 ++ decimal (Z.of_nat (List.length (listed w)))
                                 ++ " resource group(s).")
                  | Some err => console_error_value err
                  end])%list;
         result := exited 0 |}
    /\ List.length printed = List.length (listed w)
    /\ forall k item,
         nth_error (listed w) k = Some item ->
         nth_error printed k
         = Some (console_log (decimal (Z.of_nat k + 1) ++ ": "
                              ++ template_opt item)).
Proof.
  intros Hid Hne Hc Hcl.
  destruct (print_items_spec (listed w) 0) as (Hn & Hl & Hk).
  exists (fst (print_items 0 (listed w))).
  split; [|split; [exact Hl | exact Hk]].
  unfold script, missing, main. rewrite Hid, Hc, Hcl.
  apply String.eqb_neq in Hne. rewrite Hne. cbn [template_opt].
  destruct (print_items 0 (listed w)) as [printed n]. cbn [fst snd] in *.
  subst n. destruct (list_throws w) as [err|].
  - cbn [app]. rewrite <- ?app_assoc. reflexivity.
  - cbn [app]. rewrite <- ?app_assoc. reflexivity.
Qed.

Lemma listing_numbers_and_counts_witness :
  exists printed,
    events (script Cases.three_groups)
    = ([console_log "Using Subscription ID: 0000-1111";
        new_DefaultAzureCredential;
        new_ResourceManagementClient "0000-1111";
        resourceGroups_list]
         ++ printed ++ [console_log "Found 3 resource group(s)."])%list
    /\ List.length printed = 3%nat
    /\ nth_error printed 1 = Some (console_log "2: undefined").
Proof.
  assert (Hne : "0000-1111" <> EmptyString) by discriminate.
  destruct (listing_numbers_and_counts Cases.three_groups "0000-1111"
              eq_refl Hne eq_refl eq_refl) as (printed & Hs & Hl & Hk).
  exists printed. rewrite Hs. split; [reflexivity|].
  split; [exact Hl | exact (Hk 1%nat None eq_refl)].
Defined.

End Listing.

(* ================================================================== *)
(** ** More on the retry loop and the provisioning scripts *)
(* ================================================================== *)

Section RetryShape.
Import Setup.

(** Among the first [N] answers, either there is a first success or all
    are failures. *)
Lemma first_success_or_all_fail (status : nat -> Z) (N : nat) :
  (exists k, (k < N)%nat /\ status k = 0
             /\ forall i, (i < k)%nat -> status i <> 0)
  \/ (forall i, (i < N)%nat -> status i <> 0).
Proof.
  induction N as [|N [(k & Hk & H0 & Hf)|Hall]].
  - right. intros i Hi. lia.
  - left. exists k. repeat split; [lia | exact H0 | exact Hf].
  - destruct (Z.eq_dec (status N) 0) as [H0|H0].
    + left. exists N. repeat split; [lia | exact H0 | exact Hall].
    + right. intros i Hi.
      destruct (Nat.eq_dec i N) as [->|Hne]; [exact H0 | apply Hall; lia].
Qed.

(** The run that ends by [break]: [k] failures and then a success. *)
Lemma retry_loop_first_success (p : retry_params) (status : nat -> Z)
    (exhausted : list event) (k : nat) :
  1 <= MAX_RETRIES p -> MAX_RETRIES p < 2 ^ 63 ->
  Z.of_nat k < MAX_RETRIES p ->
  (forall i, (i < k)%nat -> status i <> 0) ->
  status k = 0 ->
  exists s pre,
    retry_loop p status exhausted = Some s
    /\ broke s = true
    /\ calls s = S k
    /\ attempts (out s) = S k
    /\ out s = (pre ++ [az_keyvault_secret_set;
                        print_success "Sample secret created successfully!"])%list
    /\ sleeps (out s) = map (delay_seq p) (seq 0 k)
    /\ error_lines (out s) = error_lines pre.
Proof.
  intros Hpos Hmax Hk Hfail Hok.
  assert (Hrun : forall m, (m < S k)%nat ->
            running p (Nat.iter m (iteration p status exhausted) (initial p))
            = true).
  { intros m Hm.
    destruct (after_failures p status exhausted m Hpos Hmax)
      as (Hcount & _ & _ & Hbroke & _);
      [lia | intros i Hi; apply Hfail; lia |].
    unfold after in *. unfold running. rewrite Hbroke, Hcount.
    apply Z.ltb_lt. lia. }
  destruct (after_failures p status exhausted k Hpos Hmax)
    as (Hcount & Hdelay & Hcalls & Hbroke & pre & Hout & Hsl & Hat);
    [lia | exact Hfail |].
  replace (Z.of_nat k =? MAX_RETRIES p) with false in Hout
    by (symmetry; apply Z.eqb_neq; lia).
  rewrite app_nil_r in Hout.
  destruct (wait_at_head p k (after p status exhausted k))
    as (Wc & Wd & Wk & Wb & Ws & Wa);
    try assumption; try (rewrite Hout; assumption).
  exists (after p status exhausted (S k)).
  exists (out (wait p (after p status exhausted k))).
  unfold retry_loop.
  rewrite (while_loop_passes p status exhausted (S k)); [|lia|exact Hrun].
  fold (after p status exhausted (S k)).
  assert (Hs : after p status exhausted (S k)
               = {| RETRY_COUNT := RETRY_COUNT (wait p (after p status exhausted k));
                    RETRY_DELAY := RETRY_DELAY (wait p (after p status exhausted k));
                    calls := S k;
                    out := out (wait p (after p status exhausted k))
                           ++ [az_keyvault_secret_set;
                               print_success "Sample secret created successfully!"];
                    broke := true |}).
  { unfold after. rewrite Nat.iter_succ. unfold iteration at 1, attempt.
    fold (after p status exhausted k). rewrite Wk, Hok. reflexivity. }
  rewrite Hs. cbn [RETRY_COUNT RETRY_DELAY calls out broke].
  split; [apply while_loop_stopped; reflexivity|].
  split; [reflexivity|]. split; [reflexivity|].
  split; [rewrite attempts_app, Wa; cbn; lia|].
  split; [reflexivity|].
  split; [rewrite sleeps_app, Ws; simpl; apply app_nil_r|].
  unfold error_lines. rewrite filter_app. simpl. apply app_nil_r.
Qed.

(** The run that ends at the maximum: every attempt allowed fails. *)
Lemma retry_loop_all_fail (p : retry_params) (status : nat -> Z)
    (exhausted : list event) :
  1 <= MAX_RETRIES p -> MAX_RETRIES p < 2 ^ 63 ->
  (forall i, (i < Z.to_nat (MAX_RETRIES p))%nat -> status i <> 0) ->
  exists s pre,
    retry_loop p status exhausted = Some s
    /\ broke s = false
    /\ calls s = Z.to_nat (MAX_RETRIES p)
    /\ out s = (pre ++ exhausted)%list
    /\ attempts pre = Z.to_nat (MAX_RETRIES p)
    /\ sleeps pre
       = map (delay_seq p) (seq 0 (Z.to_nat (MAX_RETRIES p) - 1)).
Proof.
  intros Hpos Hmax Hfail.
  set (N := Z.to_nat (MAX_RETRIES p)) in *.
  assert (HN : Z.of_nat N = MAX_RETRIES p) by (subst N; lia).
  assert (Hrun : forall m, (m < N)%nat ->
            running p (Nat.iter m (iteration p status exhausted) (initial p))
            = true).
  { intros m Hm.
    destruct (after_failures p status exhausted m Hpos Hmax)
      as (Hcount & _ & _ & Hbroke & _);
      [lia | intros i Hi; apply Hfail; lia |].
    unfold after in *. unfold running. rewrite Hbroke, Hcount.
    apply Z.ltb_lt. lia. }
  destruct (after_failures p status exhausted N Hpos Hmax)
    as (Hcount & _ & Hcalls & Hbroke & pre & Hout & Hsl & Hat);
    [lia | exact Hfail |].
  rewrite HN, Z.eqb_refl in Hout.
  exists (after p status exhausted N), pre.
  unfold retry_loop. fold N.
  rewrite (while_loop_passes p status exhausted N); [|lia|exact Hrun].
  fold (after p status exhausted N). rewrite Nat.sub_diag.
  split.
  { apply while_loop_stopped. unfold running. rewrite Hcount, HN, Z.ltb_irrefl.
    apply andb_false_r. }
  repeat split; try assumption.
  rewrite Hsl. replace (Nat.pred N) with (N - 1)%nat by lia. reflexivity.
Qed.

(** Every run of the loop, whatever the secret write answers: [n]
    attempts, [n - 1] sleeps along the delay sequence, and the loop ends
    either by [break] on the attempt that succeeded or at the maximum. *)
Lemma retry_loop_shape (p : retry_params) (status : nat -> Z)
    (exhausted : list event) :
  1 <= MAX_RETRIES p -> MAX_RETRIES p < 2 ^ 63 ->
  sleeps exhausted = [] -> attempts exhausted = 0%nat ->
  exists s n,
    retry_loop p status exhausted = Some s
    /\ (1 <= n)%nat
    /\ Z.of_nat n <= MAX_RETRIES p
    /\ attempts (out s) = n
    /\ calls s = n
    /\ sleeps (out s) = map (delay_seq p) (seq 0 (n - 1))
    /\ (forall i, (i < n - 1)%nat -> status i <> 0)
    /\ ((broke s = true /\ status (n - 1)%nat = 0)
        \/ (broke s = false /\ status (n - 1)%nat <> 0
            /\ Z.of_nat n = MAX_RETRIES p)).
Proof.
  intros Hpos Hmax Hqs Hqa.
  destruct (first_success_or_all_fail status (Z.to_nat (MAX_RETRIES p)))
    as [(k & Hk & H0 & Hf)|Hall].
  - destruct (retry_loop_first_success p status exhausted k Hpos Hmax)
      as (s & pre & Hs & Hb & Hc & Ha & _ & Hsl & _);
      [lia | exact Hf | exact H0 |].
    exists s, (S k). replace (S k - 1)%nat with k by lia.
    repeat split; try assumption; try lia. left. split; assumption.
  - destruct (retry_loop_all_fail p status exhausted Hpos Hmax Hall)
      as (s & pre & Hs & Hb & Hc & Ho & Ha & Hsl).
    exists s, (Z.to_nat (MAX_RETRIES p)).
    repeat split; try assumption; try lia.
    + rewrite Ho, attempts_app, Ha, Hqa. lia.
    + rewrite Ho, sleeps_app, Hsl, Hqs. apply app_nil_r.
    + intros i Hi. apply Hall. lia.
    + right. repeat split; [exact Hb | apply Hall; lia | lia].
Qed.

(** Any property of the loop's state that each pass keeps holds when the
    loop ends. *)
Lemma while_loop_invariant (P : retry_state -> Prop) (p : retry_params)
    (status : nat -> Z) (exhausted : list event) :
  (forall s, P s -> P (iteration p status exhausted s)) ->
  forall fuel s s',
  P s -> while_loop p status exhausted fuel s = Some s' -> P s'.
Proof.
  intros Hstep. induction fuel as [|fuel IH]; intros s s' Hs Hrun;
    cbn [while_loop] in Hrun; destruct (running p s).
  - discriminate.
  - injection Hrun as <-. exact Hs.
  - apply (IH (iteration p status exhausted s)); [apply Hstep; exact Hs | exact Hrun].
  - injection Hrun as <-. exact Hs.
Qed.

Lemma error_lines_app (a b : list event) :
  error_lines (a ++ b) = (error_lines a ++ error_lines b)%list.
Proof. apply filter_app. Qed.

(** The loop prints no error line of its own. *)
Lemma retry_loop_no_error_lines (p : retry_params) (status : nat -> Z)
    (exhausted : list event) (s : retry_state) :
  error_lines exhausted = [] ->
  retry_loop p status exhausted = Some s ->
  error_lines (out s) = [].
Proof.
  intros Hq Hrun.
  apply (while_loop_invariant (fun s => error_lines (out s) = [])
           p status exhausted) with (3 := Hrun); [|reflexivity].
  clear s Hrun. intros s Hs. unfold iteration, attempt, wait.
  destruct (0 <? RETRY_COUNT s);
    cbn [calls out RETRY_COUNT];
    destruct (status (calls s) =? 0); cbn [out];
    rewrite ?error_lines_app, Hs; cbn [app];
    try reflexivity;
    destruct (_ =? MAX_RETRIES p); unfold error_lines in *;
    cbn [filter is_print_error app]; rewrite ?Hq; reflexivity.
Qed.

End RetryShape.

Section ProvisioningTails.
Import Setup.

Lemma first_tail_stops (p : retry_params) (w : world) :
  role_assignment_status w <> 0 ->
  First.tail p w
  = ([print_status "Assigning 'Key Vault Secrets Officer' role to current user...";
      az_role_assignment_create],
     exit (role_assignment_status w)).
Proof.
  intros H. apply Z.eqb_neq in H.
  unfold First.tail, command, emit, bind. rewrite H. reflexivity.
Qed.

Lemma first_tail_run (p : retry_params) (w : world) :
  role_assignment_status w = 0 ->
  First.tail p w
  = match retry_loop p (secret_set_status w) (First.exhausted p w) with
    | Some s =>
      (([print_status "Assigning 'Key Vault Secrets Officer' role to current user...";
         az_role_assignment_create;
         print_success "Role assignment completed successfully.";
         print_status "Creating sample secret 'MySecret' for testing...";
         print_warning propagation_note]
          ++ out s ++ fst (finish w))%list,
       snd (finish w))
    | None =>
      ([print_status "Assigning 'Key Vault Secrets Officer' role to current user...";
        az_role_assignment_create;
        print_success "Role assignment completed successfully.";
        print_status "Creating sample secret 'MySecret' for testing...";
        print_warning propagation_note],
       out_of_fuel)
    end.
Proof.
  intros H. unfold First.tail, run_retry_loop, command. rewrite H.
  destruct (retry_loop p (secret_set_status w) (First.exhausted p w)) as [s|].
  - unfold bind, emit. cbn [Z.eqb].
    destruct (finish w) as [evs r]. reflexivity.
  - reflexivity.
Qed.

Lemma second_tail_skips (p : retry_params) (w : world) :
  role_assignment_status w <> 0 ->
  Second.tail p w
  = (([az_role_assignment_create;
       print_error "RBAC role assignment failed. You may need to assign the role manually:";
       print_error ("  " ++ manual_role_assignment w);
       print_warning "This could be due to insufficient permissions or subscription limitations."]
        ++ Second.skipped w ++ fst (finish w))%list,
     snd (finish w)).
Proof.
  intros H. apply Z.eqb_neq in H.
  unfold Second.tail, Second.assign_role, condition, emit_all.
  unfold bind at 2. rewrite H. unfold bind, emit, ret.
  destruct (finish w) as [evs r]. reflexivity.
Qed.

Lemma second_tail_run (p : retry_params) (w : world) :
  role_assignment_status w = 0 ->
  Second.tail p w
  = match retry_loop p (secret_set_status w) (Second.exhausted p w) with
    | Some s =>
      (([az_role_assignment_create;
         print_success "RBAC role assignment completed successfully.";
         print_status "Creating sample secret 'MySecret' for testing...";
         print_warning propagation_note]
          ++ out s ++ fst (finish w))%list,
       snd (finish w))
    | None =>
      ([az_role_assignment_create;
        print_success "RBAC role assignment completed successfully.";
        print_status "Creating sample secret 'MySecret' for testing...";
        print_warning propagation_note],
       out_of_fuel)
    end.
Proof.
  intros H.
  unfold Second.tail, Second.assign_role, condition, run_retry_loop.
  unfold bind at 2. rewrite H. cbn [Z.eqb].
  destruct (retry_loop p (secret_set_status w) (Second.exhausted p w)) as [s|].
  - unfold bind, emit, ret. destruct (finish w) as [evs r].
    cbn [app]. rewrite app_nil_r. reflexivity.
  - reflexivity.
Qed.

Lemma error_lines_finish (w : world) : error_lines (fst (finish w)) = [].
Proof.
  rewrite finish_run. cbn [fst]. rewrite error_lines_app.
  destruct (cat_status w =? 0); reflexivity.
Qed.

(** X10. Whatever the secret write answers, for numbers within the
    contract the loop makes between 1 and the maximum number of attempts;
    its sleeps and attempts, in the order they happen, are: the first
    attempt, and then for each later attempt one sleep followed by that
    attempt, so that it sleeps exactly once between two consecutive
    attempts and never before the first or after the last, each time for
    the next term of the increment-then-cap sequence; every attempt but
    the last has failed, and the loop ends by [break] exactly when the
    last one succeeded, and otherwise only at the maximum. *)
Theorem bounded_retry (p : retry_params) (status : nat -> Z)
    (exhausted : list event) :
  contract p ->
  sleeps exhausted = [] -> attempts exhausted = 0%nat ->
  exists s n,
    retry_loop p status exhausted = Some s
    /\ (1 <= n)%nat
    /\ Z.of_nat n <= MAX_RETRIES p
    /\ attempts (out s) = n
    /\ sleeps (out s) = map (capped_delay p) (seq 0 (n - 1))
    /\ timeline (out s)
       = flat_map (fun i => (if (i =? 0)%nat then []
                             else [sleep (capped_delay p (i - 1))])
                            ++ [az_keyvault_secret_set])%list
           (seq 0 n)
    /\ Forall (fun d => INITIAL_DELAY p <= d <= DELAY_CAP p) (sleeps (out s))
    /\ (forall i, (i < n - 1)%nat -> status i <> 0)
    /\ (broke s = true <-> status (n - 1)%nat = 0)
    /\ (broke s = false -> Z.of_nat n = MAX_RETRIES p).
Proof.
  intros Hc Hqs Hqa.
  pose proof (max_positive p Hc) as Hpos.
  pose proof (max_in_range p Hc) as Hmax.
  destruct (retry_loop_shape p status exhausted Hpos Hmax Hqs Hqa)
    as (s & n & Hs & H1 & Hn & Ha & _ & Hsl & Hf & Hend).
  assert (Hsl' : sleeps (out s) = map (capped_delay p) (seq 0 (n - 1))).
  { rewrite Hsl. apply map_ext. intros i. apply (delay_seq_capped p Hc). }
  assert (Htl : timeline (out s)
                = flat_map (fun i => (if (i =? 0)%nat then []
                                      else [sleep (delay_seq p (i - 1))])
                                     ++ [az_keyvault_secret_set])%list
                    (seq 0 n)).
  { destruct Hend as [[_ H0]|[_ [Hne HN]]].
    - destruct (retry_loop_success_trace p status exhausted (n - 1)
                  Hpos Hmax) as (s' & Hs' & _ & _ & Hout);
        [lia | exact Hf | exact H0 |].
      rewrite Hs in Hs'. injection Hs' as <-.
      replace (S (n - 1)) with n in Hout by lia.
      rewrite Hout, timeline_app, timeline_expected_passes.
      cbn [timeline filter is_sleep is_attempt orb]. apply app_nil_r.
    - destruct (retry_loop_all_fail_trace p status exhausted Hpos Hmax)
        as (s' & Hs' & _ & _ & Hout).
      { intros i Hi. destruct (Nat.eq_dec i (n - 1)) as [->|Hi'].
        - exact Hne.
        - apply Hf. lia. }
      rewrite Hs in Hs'. injection Hs' as <-.
      replace (Z.to_nat (MAX_RETRIES p)) with n in Hout by lia.
      rewrite Hout, timeline_app, timeline_expected_passes,
        (timeline_quiet exhausted Hqs Hqa).
      apply app_nil_r. }
  exists s, n. repeat split; try assumption.
  - rewrite Htl. apply flat_map_ext. intros i.
    destruct (i =? 0)%nat; [reflexivity|].
    rewrite (delay_seq_capped p Hc). reflexivity.
  - rewrite Hsl'. apply Forall_forall. intros d Hd.
    apply in_map_iff in Hd. destruct Hd as (i & <- & _).
    apply (capped_delay_bounds p Hc).
  - intros Hb. destruct Hend as [[_ H0]|[Hb' _]]; [exact H0 | congruence].
  - intros H0. destruct Hend as [[Hb _]|[_ [Hne _]]]; [exact Hb | contradiction].
  - intros Hb. destruct Hend as [[Hb' _]|[_ [_ HN]]]; [congruence | exact HN].
Qed.

Lemma bounded_retry_witness :
  exists s,
    retry_loop script_params (Scenario.fails_then_succeeds 5)
      (First.exhausted script_params
         (Scenario.provisioning 0 (Scenario.fails_then_succeeds 5)))
    = Some s
    /\ attempts (out s) = 6%nat
    /\ sleeps (out s) = [10; 15; 20; 25; 30]
    /\ timeline (out s)
       = [az_keyvault_secret_set;
          sleep 10; az_keyvault_secret_set;
          sleep 15; az_keyvault_secret_set;
          sleep 20; az_keyvault_secret_set;
          sleep 25; az_keyvault_secret_set;
          sleep 30; az_keyvault_secret_set]
    /\ broke s = true.
Proof.
  assert (Hc : contract script_params).
  { constructor; simpl; try lia. exists 4. reflexivity. }
  destruct (bounded_retry script_params (Scenario.fails_then_succeeds 5)
              (First.exhausted script_params
                 (Scenario.provisioning 0 (Scenario.fails_then_succeeds 5)))
              Hc eq_refl eq_refl)
    as (s & n & Hs & _ & _ & Ha & Hsl & Htl & _ & _ & Hb & _).
  exists s. split; [exact Hs|].
  assert (Hn : Some n = Some 6%nat).
  { rewrite <- Ha.
    change (Some (attempts (out s)))
      with (option_map (fun s => attempts (out s)) (Some s)).
    rewrite <- Hs. reflexivity. }
  injection Hn as Hn. rewrite Hn in Ha, Hsl, Htl, Hb.
  split; [exact Ha|]. split; [rewrite Hsl; reflexivity|].
  split; [rewrite Htl; reflexivity|].
  apply Hb. reflexivity.
Defined.

Lemma script_sleep_budget (n : nat) :
  (1 <= n <= 12)%nat ->
  total (map (delay_seq script_params) (seq 0 (n - 1))) <= 280
  /\ (n = 12%nat ->
      total (map (delay_seq script_params) (seq 0 (n - 1))) = 280).
Proof.
  intros Hn.
  do 13 (destruct n as [|n];
         [first [lia
                | split; [vm_compute; discriminate
                         | intros H; try discriminate H; reflexivity]]|]).
  lia.
Qed.

(** X11. With the scripts' own numbers, neither provisioning script sleeps
    more than 280 seconds in all, whatever the commands answer; the first
    one sleeps exactly that long when the role was assigned and twelve
    secret writes were attempted. *)
Theorem provisioning_sleeps_at_most_280 (w : world) :
  total (sleeps (fst (First.script w))) <= 280
  /\ total (sleeps (fst (Second.script w))) <= 280
  /\ (attempts (fst (First.script w)) = 12%nat ->
      total (sleeps (fst (First.script w))) = 280).
Proof.
  assert (H1 : 1 <= MAX_RETRIES script_params) by (simpl; lia).
  assert (H2 : MAX_RETRIES script_params < 2 ^ 63) by (simpl; lia).
  unfold First.script, Second.script.
  destruct (retry_loop_shape script_params (secret_set_status w)
              (First.exhausted script_params w) H1 H2 eq_refl eq_refl)
    as (s1 & n1 & Hs1 & Hp1 & Hn1 & Ha1 & _ & Hsl1 & _).
  destruct (retry_loop_shape script_params (secret_set_status w)
              (Second.exhausted script_params w) H1 H2 eq_refl eq_refl)
    as (s2 & n2 & Hs2 & Hp2 & Hn2 & Ha2 & _ & Hsl2 & _).
  assert (Hb1 : (1 <= n1 <= 12)%nat) by (simpl in Hn1; lia).
  assert (Hb2 : (1 <= n2 <= 12)%nat) by (simpl in Hn2; lia).
  destruct (script_sleep_budget n1 Hb1) as [Hle1 Heq1].
  destruct (script_sleep_budget n2 Hb2) as [Hle2 _].
  destruct (Z.eq_dec (role_assignment_status w) 0) as [Hr|Hr].
  - rewrite (first_tail_run _ w Hr), (second_tail_run _ w Hr), Hs1, Hs2.
    cbn [fst]. rewrite !sleeps_app, !attempts_app, !sleeps_finish,
      !attempts_finish, Hsl1, Hsl2, Ha1.
    cbn [sleeps attempts filter is_attempt List.length app].
    rewrite !app_nil_r, Nat.add_0_r.
    split; [exact Hle1 | split; [exact Hle2 | exact Heq1]].
  - rewrite (first_tail_stops _ w Hr), (second_tail_skips _ w Hr).
    cbn [fst]. rewrite !sleeps_app, sleeps_finish.
    split; [vm_compute; discriminate|].
    split; [vm_compute; discriminate | intros H; discriminate H].
Qed.

(** X12. In the first provisioning script the role assignment is a plain
    command under [set -e]: when it fails the script ends there with the
    command's status. No secret write is attempted, nothing of the summary
    is printed and no configuration file is written. *)
Theorem first_script_stops_at_failed_role_assignment
    (p : retry_params) (w : world) :
  role_assignment_status w <> 0 ->
  snd (First.tail p w) = exit (role_assignment_status w)
  /\ attempts (fst (First.tail p w)) = 0%nat
  /\ List.last (fst (First.tail p w)) (echo EmptyString)
     = az_role_assignment_create
  /\ (forall ev, In ev (summary w) -> ~ In ev (fst (First.tail p w)))
  /\ ~ In (cat_CONFIG_FILE (config_lines w)) (fst (First.tail p w)).
Proof.
  intros Hr. rewrite (first_tail_stops p w Hr). cbn [fst snd].
  repeat split.
  - intros ev Hev [H|[H|[]]]; subst ev; cbn in Hev;
      repeat (destruct Hev as [Hev|Hev]; [discriminate Hev|]); exact Hev.
  - intros [H|[H|[]]]; discriminate H.
Qed.

Lemma first_script_stops_at_failed_role_assignment_witness :
  First.script (Scenario.provisioning 1 Scenario.always_fails)
  = ([print_status "Assigning 'Key Vault Secrets Officer' role to current user...";
      az_role_assignment_create],
     exit 1).
Proof.
  assert (Hr : role_assignment_status
                 (Scenario.provisioning 1 Scenario.always_fails) <> 0)
    by discriminate.
  destruct (first_script_stops_at_failed_role_assignment script_params
              (Scenario.provisioning 1 Scenario.always_fails) Hr)
    as (Hs & _).
  unfold First.script.
  rewrite (surjective_pairing (First.tail _ _)), Hs. reflexivity.
Defined.

(** X13. Whether a provisioning script reaches its last line does not
    depend on the secret write: the first script completes exactly when
    the role assignment and the write of the configuration file succeed,
    the second exactly when the write of the configuration file
    succeeds. *)
Theorem completion_ignores_secret_write (p : retry_params) (w : world) :
  0 <= MAX_RETRIES p < 2 ^ 63 ->
  (snd (First.tail p w) = ok tt
   <-> role_assignment_status w = 0 /\ cat_status w = 0)
  /\ (snd (Second.tail p w) = ok tt <-> cat_status w = 0).
Proof.
  intros Hm.
  destruct (retry_loop_total p (secret_set_status w) (First.exhausted p w) Hm)
    as [s1 Hs1].
  destruct (retry_loop_total p (secret_set_status w) (Second.exhausted p w) Hm)
    as [s2 Hs2].
  assert (Hfin : snd (finish w) = ok tt <-> cat_status w = 0).
  { rewrite finish_run. cbn [snd].
    destruct (Z.eqb_spec (cat_status w) 0) as [H|H];
      split; intros H'; try reflexivity; try assumption;
      [discriminate | contradiction]. }
  destruct (Z.eq_dec (role_assignment_status w) 0) as [Hr|Hr].
  - rewrite (first_tail_run p w Hr), (second_tail_run p w Hr), Hs1, Hs2.
    cbn [snd]. tauto.
  - rewrite (first_tail_stops p w Hr), (second_tail_skips p w Hr).
    cbn [snd]. split; [|exact Hfin].
    split; [discriminate | intros [H _]; contradiction].
Qed.

Lemma completion_ignores_secret_write_witness :
  snd (First.script (Scenario.provisioning 0 Scenario.always_fails)) = ok tt
  /\ snd (Second.script (Scenario.provisioning 1 Scenario.always_fails))
     = ok tt.
Proof.
  assert (Hm : 0 <= MAX_RETRIES script_params < 2 ^ 63) by (simpl; lia).
  split.
  - apply (completion_ignores_secret_write script_params
             (Scenario.provisioning 0 Scenario.always_fails) Hm).
    split; reflexivity.
  - apply (completion_ignores_secret_write script_params
             (Scenario.provisioning 1 Scenario.always_fails) Hm).
    reflexivity.
Defined.

(** X14. When the role assignment succeeds, both provisioning scripts
    retry alike: the same number of secret writes, the same sleeps, the
    same end. They differ only in the lines they print. *)
Theorem scripts_retry_alike (p : retry_params) (w : world) :
  1 <= MAX_RETRIES p -> MAX_RETRIES p < 2 ^ 63 ->
  role_assignment_status w = 0 ->
  attempts (fst (First.tail p w)) = attempts (fst (Second.tail p w))
  /\ sleeps (fst (First.tail p w)) = sleeps (fst (Second.tail p w))
  /\ snd (First.tail p w) = snd (Second.tail p w).
Proof.
  intros H1 H2 Hr.
  destruct (retry_loop_shape p (secret_set_status w) (First.exhausted p w)
              H1 H2 eq_refl eq_refl)
    as (s1 & n1 & Hs1 & Hp1 & Hn1 & Ha1 & _ & Hsl1 & Hf1 & He1).
  destruct (retry_loop_shape p (secret_set_status w) (Second.exhausted p w)
              H1 H2 eq_refl eq_refl)
    as (s2 & n2 & Hs2 & Hp2 & Hn2 & Ha2 & _ & Hsl2 & Hf2 & He2).
  assert (Hn : n1 = n2).
  { destruct (Nat.lt_trichotomy n1 n2) as [Hlt|[Heq|Hgt]]; [|exact Heq|].
    - assert (Hx : secret_set_status w (n1 - 1)%nat <> 0) by (apply Hf2; lia).
      destruct He1 as [[_ H0]|[_ [_ HN]]]; [contradiction | lia].
    - assert (Hx : secret_set_status w (n2 - 1)%nat <> 0) by (apply Hf1; lia).
      destruct He2 as [[_ H0]|[_ [_ HN]]]; [contradiction | lia]. }
  rewrite <- Hn in Ha2, Hsl2.
  rewrite (first_tail_run p w Hr), (second_tail_run p w Hr), Hs1, Hs2.
  cbn [fst snd]. rewrite !attempts_app, !sleeps_app, Ha1, Ha2, Hsl1, Hsl2.
  repeat split.
Qed.

Lemma scripts_retry_alike_witness :
  attempts (fst (First.script (Scenario.provisioning 0
                                 (Scenario.fails_then_succeeds 3))))
  = attempts (fst (Second.script (Scenario.provisioning 0
                                    (Scenario.fails_then_succeeds 3)))).
Proof.
  assert (H1 : 1 <= MAX_RETRIES script_params) by (simpl; lia).
  assert (H2 : MAX_RETRIES script_params < 2 ^ 63) by (simpl; lia).
  exact (proj1 (scripts_retry_alike script_params
                  (Scenario.provisioning 0 (Scenario.fails_then_succeeds 3))
                  H1 H2 eq_refl)).
Defined.

(** X15. The first provisioning script's tail never prints an error line:
    the branch that would report a failed role assignment comes after a
    command that has already ended the script under [set -e]. The second
    script prints its two error lines exactly when the role assignment
    fails. *)
Theorem error_lines_of_tails (p : retry_params) (w : world) :
  error_lines (fst (First.tail p w)) = []
  /\ error_lines (fst (Second.tail p w))
     = if role_assignment_status w =? 0 then []
       else [print_error "RBAC role assignment failed. You may need to assign the role manually:";
             print_error ("  " ++ manual_role_assignment w)].
Proof.
  destruct (Z.eqb_spec (role_assignment_status w) 0) as [Hr|Hr].
  - rewrite (first_tail_run p w Hr), (second_tail_run p w Hr).
    pose proof (retry_loop_no_error_lines p (secret_set_status w)
                  (First.exhausted p w)) as Q1.
    pose proof (retry_loop_no_error_lines p (secret_set_status w)
                  (Second.exhausted p w)) as Q2.
    destruct (retry_loop p (secret_set_status w) (First.exhausted p w)) as [s1|];
      destruct (retry_loop p (secret_set_status w) (Second.exhausted p w)) as [s2|];
      cbn [fst]; rewrite ?error_lines_app, ?error_lines_finish,
        ?(Q1 _ eq_refl eq_refl), ?(Q2 _ eq_refl eq_refl);
      split; reflexivity.
  - rewrite (first_tail_stops p w Hr), (second_tail_skips p w Hr).
    cbn [fst]. rewrite !error_lines_app, error_lines_finish.
    split; reflexivity.
Qed.

End ProvisioningTails.

(* ================================================================== *)
(** ** The provisioning scripts as a whole *)
(* ================================================================== *)

Section WholeScripts.
Import Setup FullSetup.

Ltac unfold_script :=
  unfold first, second, sign_in_check, print_naming, confirm,
    create_resources, lift;
  cbn [bind_full say plain tested stop unit_full fst snd app].

Ltac pass status :=
  destruct (Z.eqb_spec status 0);
  cbn [Z.eqb bind_full say plain tested stop unit_full fst snd app andb].

Lemma first_blocked (e : environment) :
  reaches_creation_first e = false ->
  List.filter changes_azure (fst (first e)) = []
  /\ snd (first e) <> ok tt.
Proof.
  unfold reaches_creation_first. unfold_script.
  pass (openssl_status e); [|intros _; split; [reflexivity | discriminate]].
  pass (login_status e); [|intros _; split; [reflexivity | discriminate]].
  pass (subscription_id_status e); [|intros _; split; [reflexivity | discriminate]].
  pass (subscription_name_status e); [|intros _; split; [reflexivity | discriminate]].
  pass (user_object_id_status e); [|intros _; split; [reflexivity | discriminate]].
  pass (user_upn_status e); [|intros _; split; [reflexivity | discriminate]].
  pass (read_status e); [|intros _; split; [reflexivity | discriminate]].
  destruct (confirmed (REPLY e)); [discriminate|].
  intros _; split; [reflexivity | discriminate].
Qed.

Lemma second_blocked (e : environment) :
  reaches_creation_second e = false ->
  List.filter changes_azure (fst (second e)) = []
  /\ snd (second e) <> ok tt.
Proof.
  unfold reaches_creation_second. unfold_script.
  pass (openssl_status e); [|intros _; split; [reflexivity | discriminate]].
  pass (login_status e); [|intros _; split; [reflexivity | discriminate]].
  pass (subscription_id_status e); [|intros _; split; [reflexivity | discriminate]].
  pass (subscription_name_status e); [|intros _; split; [reflexivity | discriminate]].
  pass (tenant_id_status e); [|intros _; split; [reflexivity | discriminate]].
  pass (user_object_id_status e); [|intros _; split; [reflexivity | discriminate]].
  pass (user_upn_status e); [|intros _; split; [reflexivity | discriminate]].
  pass (role_definition_status e);
    (pass (read_status e); [|intros _; split; [reflexivity | discriminate]];
     destruct (confirmed (REPLY e)); [discriminate|];
     intros _; split; [reflexivity | discriminate]).
Qed.

Lemma confirmed_letters (reply : string) :
  confirmed reply = true <-> reply = "y" \/ reply = "Y".
Proof.
  unfold confirmed. rewrite orb_true_iff, !String.eqb_eq. reflexivity.
Qed.

Lemma error_steps_does (evs : list event) :
  error_steps (List.map does evs) = List.map does (error_lines evs).
Proof.
  induction evs as [|ev evs IH]; [reflexivity|].
  destruct ev; cbn; rewrite ?IH; try reflexivity;
    unfold error_steps, error_lines in IH; rewrite IH; reflexivity.
Qed.

Lemma first_script_error_lines (w : world) :
  error_lines (fst (First.script w)) = [].
Proof.
  unfold First.script.
  destruct (Z.eq_dec (role_assignment_status w) 0) as [Hr|Hr].
  - rewrite (first_tail_run _ w Hr).
    pose proof (retry_loop_no_error_lines script_params (secret_set_status w)
                  (First.exhausted script_params w)) as Q.
    destruct (retry_loop script_params (secret_set_status w)
                (First.exhausted script_params w)) as [s|];
      cbn [fst]; rewrite ?error_lines_app, ?error_lines_finish,
        ?(Q _ eq_refl eq_refl); reflexivity.
  - rewrite (first_tail_stops _ w Hr). reflexivity.
Qed.

Lemma second_script_error_lines (w : world) :
  error_lines (fst (Second.script w))
  = if role_assignment_status w =? 0 then []
    else [print_error "RBAC role assignment failed. You may need to assign the role manually:";
          print_error ("  " ++ manual_role_assignment w)].
Proof.
  unfold Second.script.
  destruct (Z.eqb_spec (role_assignment_status w) 0) as [Hr|Hr].
  - rewrite (second_tail_run _ w Hr).
    pose proof (retry_loop_no_error_lines script_params (secret_set_status w)
                  (Second.exhausted script_params w)) as Q.
    destruct (retry_loop script_params (secret_set_status w)
                (Second.exhausted script_params w)) as [s|];
      cbn [fst]; rewrite ?error_lines_app, ?error_lines_finish,
        ?(Q _ eq_refl eq_refl); reflexivity.
  - rewrite (second_tail_skips _ w Hr). cbn [fst].
    rewrite !error_lines_app, error_lines_finish. reflexivity.
Qed.

Lemma script_tails_complete (w : world) :
  (snd (First.script w) = ok tt
   <-> role_assignment_status w = 0 /\ cat_status w = 0)
  /\ (snd (Second.script w) = ok tt <-> cat_status w = 0).
Proof.
  assert (Hm : 0 <= MAX_RETRIES script_params < 2 ^ 63) by (simpl; lia).
  unfold First.script, Second.script.
  destruct (retry_loop_total script_params (secret_set_status w)
              (First.exhausted script_params w) Hm) as [s1 Hs1].
  destruct (retry_loop_total script_params (secret_set_status w)
              (Second.exhausted script_params w) Hm) as [s2 Hs2].
  assert (Hfin : snd (finish w) = ok tt <-> cat_status w = 0).
  { rewrite finish_run. cbn [snd].
    destruct (Z.eqb_spec (cat_status w) 0) as [H|H];
      split; intros H'; try reflexivity; try assumption;
      [discriminate | contradiction]. }
  destruct (Z.eq_dec (role_assignment_status w) 0) as [Hr|Hr].
  - rewrite (first_tail_run _ w Hr), (second_tail_run _ w Hr), Hs1, Hs2.
    cbn [snd]. tauto.
  - rewrite (first_tail_stops _ w Hr), (second_tail_skips _ w Hr).
    cbn [snd]. split; [|exact Hfin].
    split; [discriminate | intros [H _]; contradiction].
Qed.

(** X16. Run while signed out, either provisioning script prints the
    advice to sign in and exits with status 1 right after the check:
    nothing is asked, queried or created. *)
Theorem signed_out_stops (e : environment) :
  openssl_status e = 0 ->
  login_status e <> 0 ->
  first e
  = ([run openssl_rand_hex;
      does (print_status "Starting Azure Key Vault setup for brokered authentication sample...");
      does (print_status "Checking Azure CLI authentication...");
      run az_account_show;
      does (print_error not_signed_in_line)],
     exit 1)
  /\ second e = first e.
Proof.
  intros Ho Hl. apply Z.eqb_eq in Ho. apply Z.eqb_neq in Hl.
  unfold_script. rewrite Ho.
  cbn [bind_full say plain tested stop unit_full fst snd app].
  rewrite Hl. split; reflexivity.
Qed.

Lemma signed_out_stops_witness :
  snd (first (signed_out (Scenario.provisioning 0 Scenario.always_fails)))
    = exit 1
  /\ List.filter changes_azure
       (fst (second (signed_out (Scenario.provisioning 0 Scenario.always_fails))))
     = [].
Proof.
  assert (Hl : login_status
                 (signed_out (Scenario.provisioning 0 Scenario.always_fails))
               <> 0) by discriminate.
  destruct (signed_out_stops
              (signed_out (Scenario.provisioning 0 Scenario.always_fails))
              eq_refl Hl) as [H1 H2].
  rewrite H2, H1. split; reflexivity.
Defined.

(** X17. When the prompt is reached and the reply is anything but the
    single letter y or Y (also nothing at all), either script prints that
    the operation was cancelled and exits with status 0, having created
    nothing. *)
Theorem declined_prompt_cancels (e : environment) :
  openssl_status e = 0 -> login_status e = 0 ->
  subscription_id_status e = 0 -> subscription_name_status e = 0 ->
  user_object_id_status e = 0 -> user_upn_status e = 0 ->
  read_status e = 0 ->
  REPLY e <> "y" -> REPLY e <> "Y" ->
  (snd (first e) = exit 0
   /\ List.last (fst (first e)) (run read_REPLY)
      = does (print_warning "Operation cancelled by user.")
   /\ List.filter changes_azure (fst (first e)) = [])
  /\ (tenant_id_status e = 0 ->
      snd (second e) = exit 0
      /\ List.last (fst (second e)) (run read_REPLY)
         = does (print_warning "Operation cancelled by user.")
      /\ List.filter changes_azure (fst (second e)) = []).
Proof.
  intros H1 H2 H3 H4 H5 H6 H7 Hy HY.
  assert (Hc : confirmed (REPLY e) = false).
  { unfold confirmed. apply String.eqb_neq in Hy, HY. rewrite Hy, HY.
    reflexivity. }
  split; [|intros H8]; unfold_script;
    rewrite ?H1, ?H2, ?H3, ?H4, ?H5, ?H6, ?H7, ?H8, ?Hc;
    cbn [Z.eqb bind_full say plain tested stop unit_full fst snd app].
  - repeat split.
  - destruct (role_definition_status e =? 0);
      cbn [bind_full say plain tested stop unit_full fst snd app];
      rewrite ?Hc;
      cbn [bind_full say plain tested stop unit_full fst snd app];
      repeat split.
Qed.

Lemma declined_prompt_cancels_witness :
  snd (first (all_well EmptyString
                (Scenario.provisioning 0 Scenario.always_fails))) = exit 0
  /\ snd (second (all_well "n"
                    (Scenario.provisioning 0 Scenario.always_fails))) = exit 0.
Proof.
  assert (Hy : EmptyString <> "y") by discriminate.
  assert (HY : EmptyString <> "Y") by discriminate.
  assert (Hy' : "n" <> "y") by discriminate.
  assert (HY' : "n" <> "Y") by discriminate.
  destruct (declined_prompt_cancels
              (all_well EmptyString
                 (Scenario.provisioning 0 Scenario.always_fails))
              eq_refl eq_refl eq_refl eq_refl eq_refl eq_refl eq_refl Hy HY)
    as [[H1 _] _].
  destruct (declined_prompt_cancels
              (all_well "n" (Scenario.provisioning 0 Scenario.always_fails))
              eq_refl eq_refl eq_refl eq_refl eq_refl eq_refl eq_refl Hy' HY')
    as [_ H2].
  destruct (H2 eq_refl) as [H2' _].
  split; [exact H1 | exact H2'].
Defined.

(** X18. Neither script creates or changes anything in Azure (resource
    group, vault, role assignment, secret) unless the user is signed in
    and has answered the prompt with y or Y. *)
Theorem nothing_created_without_consent (e : environment) :
  (List.filter changes_azure (fst (first e)) <> [] ->
   login_status e = 0 /\ (REPLY e = "y" \/ REPLY e = "Y"))
  /\ (List.filter changes_azure (fst (second e)) <> [] ->
      login_status e = 0 /\ (REPLY e = "y" \/ REPLY e = "Y")).
Proof.
  split; intros H.
  - destruct (reaches_creation_first e) eqn:Hr.
    + unfold reaches_creation_first in Hr.
      rewrite !andb_true_iff in Hr.
      destruct Hr as [[[[[[[_ Hl] _] _] _] _] _] Hc].
      split; [apply Z.eqb_eq; exact Hl | apply confirmed_letters; exact Hc].
    + destruct (first_blocked e Hr) as [Hn _]. contradiction.
  - destruct (reaches_creation_second e) eqn:Hr.
    + unfold reaches_creation_second in Hr.
      rewrite !andb_true_iff in Hr.
      destruct Hr as [[[[[[[[_ Hl] _] _] _] _] _] _] Hc].
      split; [apply Z.eqb_eq; exact Hl | apply confirmed_letters; exact Hc].
    + destruct (second_blocked e Hr) as [Hn _]. contradiction.
Qed.

Lemma nothing_created_without_consent_witness :
  login_status (all_well "Y" (Scenario.provisioning 0 Scenario.always_fails))
    = 0
  /\ (REPLY (all_well "Y" (Scenario.provisioning 0 Scenario.always_fails)) = "y"
      \/ REPLY (all_well "Y" (Scenario.provisioning 0 Scenario.always_fails))
         = "Y").
Proof.
  apply (nothing_created_without_consent
           (all_well "Y" (Scenario.provisioning 0 Scenario.always_fails))).
  vm_compute. discriminate.
Defined.

Ltac through_gates e Hr :=
  unfold reaches_creation_first, reaches_creation_second in Hr;
  rewrite !andb_true_iff, !Z.eqb_eq in Hr;
  repeat match type of Hr with
         | _ /\ _ => let H := fresh "Hg" in destruct Hr as [Hr H]
         end;
  unfold_script;
  repeat match goal with
         | H : ?st = 0 |- context [?st =? 0] =>
           rewrite H;
           cbn [Z.eqb bind_full say plain tested stop unit_full fst snd app]
         | H : confirmed ?r = true |- context [confirmed ?r] =>
           rewrite H;
           cbn [bind_full say plain tested stop unit_full fst snd app]
         end.

(** X19. A failed creation ends either script with the status of the
    [az] command, not with the status 1 of the script's own failure
    branch, and nothing more is attempted. When it is the vault that
    fails, the resource group created just before is left in place. *)
Theorem failed_creation_ends_script (e : environment) :
  reaches_creation_first e = true ->
  (group_create_status e <> 0 ->
   snd (first e) = exit (group_create_status e)
   /\ List.last (fst (first e)) (run read_REPLY) = run az_group_create
   /\ List.filter changes_azure (fst (first e)) = [run az_group_create])
  /\ (group_create_status e = 0 -> keyvault_create_status e <> 0 ->
      snd (first e) = exit (keyvault_create_status e)
      /\ List.last (fst (first e)) (run read_REPLY) = run az_keyvault_create
      /\ List.filter changes_azure (fst (first e))
         = [run az_group_create; run az_keyvault_create]).
Proof.
  intros Hr. split.
  - intros Hg. apply Z.eqb_neq in Hg. through_gates e Hr.
    rewrite Hg. repeat split.
  - intros Hg Hk. apply Z.eqb_neq in Hk. through_gates e Hr.
    rewrite Hk. repeat split.
Qed.

Lemma failed_creation_ends_script_witness :
  snd (first (group_refused (Scenario.provisioning 0 Scenario.always_fails)))
  = exit 3.
Proof.
  assert (Hg : group_create_status
                 (group_refused (Scenario.provisioning 0 Scenario.always_fails))
               <> 0) by discriminate.
  destruct (failed_creation_ends_script
              (group_refused (Scenario.provisioning 0 Scenario.always_fails))
              eq_refl) as [H _].
  destruct (H Hg) as [Hs _]. exact Hs.
Defined.

(** X20. The only error line the first script can ever print is the
    advice to sign in. The lines that would report a failed creation of
    the resource group or of the vault, or a failed role assignment, come
    after commands that have already ended the script under [set -e]. *)
Theorem first_script_error_lines_are_sign_in_only (e : environment) :
  error_steps (fst (first e))
  = if (openssl_status e =? 0) && negb (login_status e =? 0)
    then [does (print_error not_signed_in_line)]
    else [].
Proof.
  unfold_script.
  pass (openssl_status e); [|reflexivity].
  pass (login_status e); [|reflexivity].
  pass (subscription_id_status e); [|reflexivity].
  pass (subscription_name_status e); [|reflexivity].
  pass (user_object_id_status e); [|reflexivity].
  pass (user_upn_status e); [|reflexivity].
  pass (read_status e); [|reflexivity].
  destruct (confirmed (REPLY e));
    cbn [bind_full say plain tested stop unit_full fst snd app negb];
    [|reflexivity].
  pass (group_create_status e); [|reflexivity].
  pass (keyvault_create_status e); [|reflexivity].
  pass (keyvault_show_status e); [|reflexivity].
  cbn [negb]. unfold error_steps. cbn [filter].
  etransitivity; [exact (error_steps_does _)|].
  rewrite first_script_error_lines. reflexivity.
Qed.

(** X21. Which runs reach the last line. The first script completes
    exactly when it gets as far as creating, both creations and the
    lookup of the vault succeed, the role is assigned and the
    configuration file is written. The second completes under the
    same conditions on its own commands, except that neither a failed
    check of the role definition nor a failed role assignment stops it.
    In neither script does the secret write matter. *)
Theorem whole_scripts_complete (e : environment) :
  (snd (first e) = ok tt
   <-> reaches_creation_first e = true
       /\ group_create_status e = 0
       /\ keyvault_create_status e = 0
       /\ keyvault_show_status e = 0
       /\ role_assignment_status (tail_world e) = 0
       /\ cat_status (tail_world e) = 0)
  /\ (snd (second e) = ok tt
      <-> reaches_creation_second e = true
          /\ group_create_status e = 0
          /\ keyvault_create_status e = 0
          /\ account_set_status e = 0
          /\ keyvault_show_status e = 0
          /\ keyvault_show_again_status e = 0
          /\ cat_status (tail_world e) = 0).
Proof.
  destruct (script_tails_complete (tail_world e)) as [T1 T2].
  split.
  - destruct (reaches_creation_first e) eqn:Hr.
    + through_gates e Hr.
      pass (group_create_status e);
        [|split; [discriminate | intros (_ & H & _); contradiction]].
      pass (keyvault_create_status e);
        [|split; [discriminate | intros (_ & _ & H & _); contradiction]].
      pass (keyvault_show_status e);
        [|split; [discriminate | intros (_ & _ & _ & H & _); contradiction]].
      rewrite T1. tauto.
    + destruct (first_blocked e Hr) as [_ Hn].
      split; [intros H; contradiction | intros [H _]; discriminate].
  - destruct (reaches_creation_second e) eqn:Hr.
    + through_gates e Hr.
      pass (role_definition_status e);
        (pass (group_create_status e);
           [|split; [discriminate | intros (_ & H & _); contradiction]];
         pass (keyvault_create_status e);
           [|split; [discriminate | intros (_ & _ & H & _); contradiction]];
         pass (account_set_status e);
           [|split; [discriminate | intros (_ & _ & _ & H & _); contradiction]];
         pass (keyvault_show_status e);
           [|split; [discriminate
                    | intros (_ & _ & _ & _ & H & _); contradiction]];
         pass (keyvault_show_again_status e);
           [|split; [discriminate
                    | intros (_ & _ & _ & _ & _ & H & _); contradiction]];
         rewrite T2; tauto).
    + destruct (second_blocked e Hr) as [_ Hn].
      split; [intros H; contradiction | intros [H _]; discriminate].
Qed.

(** X22. The second script, too, never prints the lines that would
    report a failed creation: whatever the commands answer, an error line
    it prints is the advice to sign in or one of the two lines about the
    failed role assignment. *)
Theorem second_script_error_lines_are_known (e : environment) (m : string) :
  In (does (print_error m)) (fst (second e)) ->
  m = not_signed_in_line
  \/ m = "RBAC role assignment failed. You may need to assign the role manually:"
  \/ m = "  " ++ manual_role_assignment (tail_world e).
Proof.
  intros H.
  assert (He : In (does (print_error m)) (error_steps (fst (second e)))).
  { apply filter_In. split; [exact H | reflexivity]. }
  clear H. revert He. unfold_script.
  pass (openssl_status e);
    [|unfold error_steps; cbn [filter In]; intros H; contradiction].
  pass (login_status e);
    [|unfold error_steps; cbn [filter In]; intros [H|H];
      [injection H as <-; left; reflexivity | contradiction]].
  pass (subscription_id_status e);
    [|unfold error_steps; cbn [filter In]; intros H; contradiction].
  pass (subscription_name_status e);
    [|unfold error_steps; cbn [filter In]; intros H; contradiction].
  pass (tenant_id_status e);
    [|unfold error_steps; cbn [filter In]; intros H; contradiction].
  pass (user_object_id_status e);
    [|unfold error_steps; cbn [filter In]; intros H; contradiction].
  pass (user_upn_status e);
    [|unfold error_steps; cbn [filter In]; intros H; contradiction].
  pass (role_definition_status e);
    (pass (read_status e);
       [|unfold error_steps; cbn [filter In]; intros H; contradiction];
     destruct (confirmed (REPLY e));
       cbn [bind_full say plain tested stop unit_full fst snd app];
       [|unfold error_steps; cbn [filter In]; intros H; contradiction];
     pass (group_create_status e);
       [|unfold error_steps; cbn [filter In]; intros H; contradiction];
     pass (keyvault_create_status e);
       [|unfold error_steps; cbn [filter In]; intros H; contradiction];
     pass (account_set_status e);
       [|unfold error_steps; cbn [filter In]; intros H; contradiction];
     pass (keyvault_show_status e);
       [|unfold error_steps; cbn [filter In]; intros H; contradiction];
     pass (keyvault_show_again_status e);
       [|unfold error_steps; cbn [filter In]; intros H; contradiction];
     unfold error_steps; cbn [filter];
     intros He;
     change (In (does (print_error m))
               (error_steps
                  (List.map does (fst (Second.script (tail_world e))))))
       in He;
     rewrite error_steps_does, second_script_error_lines in He;
     destruct (role_assignment_status (tail_world e) =? 0);
       cbn [List.map In] in He;
       [contradiction|];
     destruct He as [He|[He|[]]]; injection He as <-;
       [right; left; reflexivity | right; right; reflexivity]).
Qed.

Lemma second_script_error_lines_are_known_witness :
  not_signed_in_line = not_signed_in_line
  \/ not_signed_in_line
     = "RBAC role assignment failed. You may need to assign the role manually:"
  \/ not_signed_in_line
     = "  " ++ manual_role_assignment
                (tail_world (signed_out (Scenario.provisioning 0
                                           Scenario.always_fails))).
Proof.
  apply (second_script_error_lines_are_known
           (signed_out (Scenario.provisioning 0 Scenario.always_fails))).
  vm_compute. tauto.
Defined.

End WholeScripts.
